(** * blogger_to_hugo: a shallow embedding of [blogger_to_hugo.py]

    The script converts a Blogger Atom export into one folder per post
    (a leaf bundle): it resolves the destination folder and slug of every
    post, downloads the images the body refers to, rewrites the body to
    point at the local copies and writes [index.md] with a YAML front
    matter.

    The embedding follows the script function by function.  Python strings
    are [string]; dictionaries are [gmap]; the file system, the log of HTTP
    requests, the BeautifulSoup tree and the shared [url_map] list form an
    explicit state [World] threaded through a state-and-exception monad, so
    that an effect performed before an exception is raised stays visible
    afterwards, as it does in Python.  Third-party libraries (requests,
    urllib, dateutil, slugify, bs4's parser, pypandoc, yaml) are a type
    class of collaborators. *)

From Stdlib Require Import ZArith Ascii String.
From stdpp Require Import gmap strings list pretty.

Local Open Scope string_scope.
Local Open Scope list_scope.

(** ** Python string primitives *)

Module PyStr.

(** [sep.join(l)] *)
Fixpoint join (sep : string) (l : list string) : string :=
  match l with
  | [] => EmptyString
  | [x] => x
  | x :: r => x +:+ sep +:+ join sep r
  end.

(** [s.split(sep)] for a one-character separator: never the empty list. *)
Fixpoint split (sep : ascii) (s : string) : list string :=
  match s with
  | EmptyString => [EmptyString]
  | String c t =>
      if Ascii.eqb c sep then EmptyString :: split sep t
      else match split sep t with
           | h :: r => String c h :: r
           | [] => [String c EmptyString]
           end
  end.

(** [s.rfind(c)]: index of the last occurrence, [None] for Python's -1. *)
Fixpoint rfind (c : ascii) (s : string) : option nat :=
  match s with
  | EmptyString => None
  | String a t =>
      match rfind c t with
      | Some i => Some (S i)
      | None => if Ascii.eqb a c then Some 0 else None
      end
  end.

(** [s.lstrip(c)] for one character. *)
Fixpoint lstrip_char (c : ascii) (s : string) : string :=
  match s with
  | String a t => if Ascii.eqb a c then lstrip_char c t else s
  | EmptyString => EmptyString
  end.

(** The ASCII white space that [str.strip()] removes; the white space
    beyond ASCII that it also removes is outside the model. *)
Definition is_space (c : ascii) : bool :=
  let n := nat_of_ascii c in
  ((n =? 32) || ((9 <=? n) && (n <=? 13)) || ((28 <=? n) && (n <=? 31)))%nat.

Fixpoint lstrip (s : string) : string :=
  match s with
  | String a t => if is_space a then lstrip t else s
  | EmptyString => EmptyString
  end.

Fixpoint rstrip (s : string) : string :=
  match s with
  | EmptyString => EmptyString
  | String a t =>
      match rstrip t with
      | EmptyString => if is_space a then EmptyString else String a EmptyString
      | r => String a r
      end
  end.

(** [s.strip()] *)
Definition strip (s : string) : string := rstrip (lstrip s).

(** [s.replace(old, new)]: every non-overlapping occurrence, left to
    right.  [skip] counts the characters of a match still to be dropped. *)
Fixpoint replace_go (old new s : string) (skip : nat) : string :=
  match s with
  | EmptyString => EmptyString
  | String c t =>
      match skip with
      | S k => replace_go old new t k
      | O =>
          if String.prefix old s
          then new +:+ replace_go old new t (String.length old - 1)
          else String c (replace_go old new t 0)
      end
  end.

Fixpoint intersperse (new s : string) : string :=
  match s with
  | EmptyString => new
  | String c t => new +:+ String c (intersperse new t)
  end.

Definition replace (old new s : string) : string :=
  match old with
  | EmptyString => intersperse new s
  | _ => replace_go old new s 0
  end.

(** The ASCII digits; the decimal digits of other scripts, which [\d]
    also matches on a [str], are outside the model. *)
Definition is_digit (c : ascii) : bool :=
  let n := nat_of_ascii c in ((48 <=? n) && (n <=? 57))%nat.

(** The longest prefix of digits and the rest (the greedy [\d+]). *)
Fixpoint span_digits (s : string) : string * string :=
  match s with
  | String c t =>
      if is_digit c
      then let '(d, r) := span_digits t in (String c d, r)
      else (EmptyString, s)
  | EmptyString => (EmptyString, EmptyString)
  end.

(** Zero padding of [format(n, '0w')] for a non-negative integer. *)
Definition zfill (w : nat) (s : string) : string :=
  String.concat EmptyString (List.repeat "0" (w - String.length s)) +:+ s.

End PyStr.

(** ** [re.sub(r'/(s\d+)-h/', r'/\1/', href)] *)

(** A match of [/(s\d+)-h/] at the head of [s]: the digits of group 1. *)
Definition size_h_match (s : string) : option string :=
  match s with
  | String "/"%char (String "s"%char t) =>
      let '(d, r) := PyStr.span_digits t in
      match d with
      | EmptyString => None
      | _ => if String.prefix "-h/" r then Some d else None
      end
  | _ => None
  end.

Fixpoint re_sub_go (s : string) (skip : nat) : string :=
  match s with
  | EmptyString => EmptyString
  | String c t =>
      match skip with
      | S k => re_sub_go t k
      | O =>
          match size_h_match s with
          | Some d => "/s" +:+ d +:+ "/" +:+ re_sub_go t (String.length d + 4)
          | None => String c (re_sub_go t 0)
          end
      end
  end.

Definition re_sub_size_h (href : string) : string := re_sub_go href 0.

(** ** [pathlib.PurePosixPath] *)

Record Path := mkPath { p_root : string; p_parts : list string }.

Global Instance Path_eq_dec : EqDecision Path.
Proof. solve_decision. Defined.

Module PathOps.

Definition keep_part (x : string) : bool :=
  negb (String.eqb x EmptyString) && negb (String.eqb x ".").

Definition rel_parts (rel : string) : list string :=
  List.filter keep_part (PyStr.split "/" rel).

(** [Path(s)]: two leading slashes are kept, any other number is one. *)
Definition parse (s : string) : Path :=
  match s with
  | String "/"%char _ =>
      let stripped := PyStr.lstrip_char "/" s in
      let n := String.length s - String.length stripped in
      mkPath (if (n =? 2)%nat then "//" else "/") (rel_parts stripped)
  | _ => mkPath EmptyString (rel_parts s)
  end.

(** [p / s] *)
Definition join (p : Path) (s : string) : Path :=
  let q := parse s in
  match p_root q with
  | EmptyString => mkPath (p_root p) (p_parts p ++ p_parts q)
  | _ => q
  end.

(** [str(p)] *)
Definition str (p : Path) : string :=
  match p_root p, p_parts p with
  | EmptyString, [] => "."
  | r, l => r +:+ PyStr.join "/" l
  end.

(** [p.name] *)
Definition name (p : Path) : string :=
  match last (p_parts p) with
  | Some x => x
  | None => EmptyString
  end.

Definition stem_of (nm : string) : string :=
  match PyStr.rfind "." nm with
  | Some i =>
      if ((0 <? i) && (i <? String.length nm - 1))%nat
      then String.substring 0 i nm
      else nm
  | None => nm
  end.

(** [p.stem]: the name without its last suffix, where a suffix needs a dot
    that is neither the first nor the last character of the name. *)
Definition stem (p : Path) : string := stem_of (name p).

(** [p.parent] *)
Definition parent (p : Path) : Path :=
  mkPath (p_root p) (removelast (p_parts p)).

End PathOps.

Notation "p // s" := (PathOps.join p s) (at level 40, left associativity).

(** ** Exceptions, outcomes and the state *)

Inductive PyErr :=
| Exception (msg : string)
| KeyError (key : string)
| AttributeError (attr : string)
| ValueError (msg : string)
| FileExistsError (path : string)
| FileNotFoundError (path : string)
| NotADirectoryError (path : string)
| IsADirectoryError (path : string)
| SystemExit (code : Z)
| LibraryError (lib : string).

Inductive Outcome (A : Type) :=
| Ok (a : A)
| Raise (e : PyErr).
Arguments Ok {A} a.
Arguments Raise {A} e.

(** What [requests.get] returns, as far as the script looks at it. *)
Record Response := mkResponse { status_code : Z; content : string }.

(** An entry of the file system: a directory or a file with its bytes. *)
Inductive FsEntry :=
| Dir
| File (data : string).

(** A node of the BeautifulSoup tree.  Nodes live in a store and refer to
    each other by identifier, so that a node taken out of the tree is still
    reachable from the nodes below it, as the Python objects are. *)
Record Tag := mkTag {
  name : string;
  attrs : gmap string string;
  parent : option nat;
  contents : list nat
}.

Inductive PageElement :=
| ETag (t : Tag)
| NavigableString (s : string) (up : option nat).

(** The state the script acts on.  Paths are identified with [str(path)];
    [..] components and symbolic links are not resolved. *)
Record World := mkWorld {
  fs : gmap string FsEntry;
  requests : list string;
  soup : gmap nat PageElement;
  url_map : list (string * string)
}.

Definition set_fs (f : gmap string FsEntry) (w : World) : World :=
  mkWorld f (requests w) (soup w) (url_map w).
Definition set_requests (r : list string) (w : World) : World :=
  mkWorld (fs w) r (soup w) (url_map w).
Definition set_soup (d : gmap nat PageElement) (w : World) : World :=
  mkWorld (fs w) (requests w) d (url_map w).
Definition set_url_map (m : list (string * string)) (w : World) : World :=
  mkWorld (fs w) (requests w) (soup w) m.

(** State first, outcome second: an exception keeps the effects done. *)
Definition M (A : Type) : Type := World -> World * Outcome A.

Global Instance M_ret : MRet M := fun A a w => (w, Ok a).
Global Instance M_bind : MBind M := fun A B k m w =>
  match m w with
  | (w', Ok a) => k a w'
  | (w', Raise e) => (w', Raise e)
  end.

Definition raise {A} (e : PyErr) : M A := fun w => (w, Raise e).
Definition lift {A} (o : Outcome A) : M A := fun w => (w, o).
Definition get : M World := fun w => (w, Ok w).
Definition modify (f : World -> World) : M unit := fun w => (f w, Ok tt).

(** [for x in l: body(x)] *)
Fixpoint for_each {A} (body : A -> M unit) (l : list A) : M unit :=
  match l with
  | [] => mret tt
  | x :: r => body x ;; for_each body r
  end.

(** ** The file system *)

Module Fs.

(** A path without components ([/], [//] or [.]) is a directory that
    always exists. *)
Definition lookup (f : gmap string FsEntry) (p : Path) : option FsEntry :=
  match p_parts p with
  | [] => Some Dir
  | _ => f !! PathOps.str p
  end.

(** [os.mkdir(p)]; of the ancestors only the immediate parent is looked
    at. *)
Definition os_mkdir (p : Path) (f : gmap string FsEntry)
  : Outcome (gmap string FsEntry) :=
  match lookup f p with
  | Some _ => Raise (FileExistsError (PathOps.str p))
  | None =>
      match lookup f (PathOps.parent p) with
      | Some Dir => Ok (<[PathOps.str p := Dir]> f)
      | Some (File _) => Raise (NotADirectoryError (PathOps.str p))
      | None => Raise (FileNotFoundError (PathOps.str p))
      end
  end.

Definition is_dir (f : gmap string FsEntry) (p : Path) : bool :=
  match lookup f p with
  | Some Dir => true
  | _ => false
  end.

(** [p.mkdir(parents=True, exist_ok=True)], as pathlib calls it on the
    parents; [n] bounds the number of components of [p]. *)
Fixpoint mkdir_exist_ok (n : nat) (p : Path) (f : gmap string FsEntry)
  : Outcome (gmap string FsEntry) :=
  match os_mkdir p f with
  | Ok f' => Ok f'
  | Raise (FileNotFoundError e) =>
      match n with
      | O => Raise (FileNotFoundError e)
      | S k =>
          match mkdir_exist_ok k (PathOps.parent p) f with
          | Ok f1 =>
              match os_mkdir p f1 with
              | Ok f2 => Ok f2
              | Raise e2 => if is_dir f1 p then Ok f1 else Raise e2
              end
          | Raise e1 => Raise e1
          end
      end
  | Raise e => if is_dir f p then Ok f else Raise e
  end.

(** [p.mkdir(parents=True)] *)
Definition mkdir_parents (p : Path) (f : gmap string FsEntry)
  : Outcome (gmap string FsEntry) :=
  match os_mkdir p f with
  | Ok f' => Ok f'
  | Raise (FileNotFoundError e) =>
      match p_parts p with
      | [] => Raise (FileNotFoundError e)
      | _ =>
          match mkdir_exist_ok (List.length (p_parts p)) (PathOps.parent p) f with
          | Ok f1 => os_mkdir p f1
          | Raise e1 => Raise e1
          end
      end
  | Raise e => Raise e
  end.

(** [open(p, 'wb').write(data)] and [p.write_text(data)]: the file is
    created or truncated. *)
Definition write (p : Path) (data : string) (f : gmap string FsEntry)
  : Outcome (gmap string FsEntry) :=
  match lookup f p with
  | Some Dir => Raise (IsADirectoryError (PathOps.str p))
  | _ =>
      match lookup f (PathOps.parent p) with
      | Some Dir => Ok (<[PathOps.str p := File data]> f)
      | Some (File _) => Raise (NotADirectoryError (PathOps.str p))
      | None => Raise (FileNotFoundError (PathOps.str p))
      end
  end.

End Fs.

(** Run a file-system operation on the state. *)
Definition on_fs (op : gmap string FsEntry -> Outcome (gmap string FsEntry))
  : M unit :=
  fun w => match op (fs w) with
           | Ok f' => (set_fs f' w, Ok tt)
           | Raise e => (w, Raise e)
           end.

(** ** The ElementTree view of the export *)

#[local] Unset Elimination Schemes.
Inductive Element :=
  mkElement (tag : string) (attrib : gmap string string)
            (text : option string) (children : list Element).
#[local] Set Elimination Schemes.

Definition tag (e : Element) : string := let 'mkElement t _ _ _ := e in t.
Definition attrib (e : Element) : gmap string string :=
  let 'mkElement _ a _ _ := e in a.
Definition text (e : Element) : option string := let 'mkElement _ _ x _ := e in x.
Definition children (e : Element) : list Element :=
  let 'mkElement _ _ _ c := e in c.

Definition atom (local : string) : string :=
  "{http://www.w3.org/2005/Atom}" +:+ local.

Definition CATEGORY_KIND : string := "http://schemas.google.com/g/2005#kind".
Definition CATEGORY_TAG : string := "http://www.blogger.com/atom/ns#".
Definition TERM_POST : string := "http://schemas.google.com/blogger/2008/kind#post".

(** [e.findall('atom:t', NS)]: the direct children with that tag. *)
Definition findall (e : Element) (t : string) : list Element :=
  List.filter (fun c => String.eqb (tag c) (atom t)) (children e).

(** [e.find('atom:t', NS)] *)
Definition find (e : Element) (t : string) : option Element :=
  head (findall e t).

(** [e.find('atom:t', NS).text]: no such child is an attribute error on
    [None]. *)
Definition find_text (e : Element) (t : string) : Outcome (option string) :=
  match find e t with
  | Some c => Ok (text c)
  | None => Raise (AttributeError "text")
  end.

(** [d[k]] *)
Definition getitem (d : gmap string string) (k : string) : Outcome string :=
  match d !! k with
  | Some v => Ok v
  | None => Raise (KeyError k)
  end.

(** ** Collaborators: the third-party libraries and the network *)

(** [dateutil.parser.parse] result, as far as the script reads it. *)
Record datetime := mkDatetime { year : N; month : N; day : N }.

(** The values the front matter holds. *)
Inductive PyValue :=
| PyNone
| PyString (s : string)
| PyList (l : list string).

Global Instance PyValue_eq_dec : EqDecision PyValue.
Proof. solve_decision. Defined.

Definition py_opt (o : option string) : PyValue :=
  match o with
  | Some s => PyString s
  | None => PyNone
  end.

Class Collaborators := {
  (** [requests.get(url)] *)
  requests_get : string -> Response;
  (** [urlparse(url).path] *)
  urlparse_path : string -> string;
  (** [dateutil.parser.parse(s)] *)
  dateutil_parse : option string -> Outcome datetime;
  (** [slugify(title, to_lower=True)] *)
  slugify : option string -> Outcome string;
  (** [BeautifulSoup(content, 'html.parser')]: the nodes and the root *)
  bs : option string -> Outcome (gmap nat PageElement * nat);
  (** [pypandoc.convert_text(html, 'markdown_strict', format='html')] *)
  pandoc_convert_text : gmap nat PageElement -> nat -> Outcome string;
  (** [yaml.dump(d, default_flow_style=False)] *)
  yaml_dump : gmap string PyValue -> string
}.

(** ** BeautifulSoup operations *)

Module Soup.

Definition tag_at (d : gmap nat PageElement) (i : nat) : option Tag :=
  match d !! i with
  | Some (ETag t) => Some t
  | _ => None
  end.

(** The nodes below [i] in document order; [fuel] bounds the depth. *)
Fixpoint descendants (fuel : nat) (d : gmap nat PageElement) (i : nat)
  : list nat :=
  match fuel with
  | O => []
  | S k =>
      match tag_at d i with
      | Some t => List.flat_map (fun c => c :: descendants k d c) (contents t)
      | None => []
      end
  end.

Definition is_tag_named (d : gmap nat PageElement) (n : string) (i : nat)
  : bool :=
  match tag_at d i with
  | Some t => String.eqb (name t) n
  | None => false
  end.

(** [root.find_all(n)]: computed once, before the loop runs. *)
Definition find_all (root : nat) (n : string) : M (list nat) :=
  fun w => (w, Ok (List.filter (is_tag_named (soup w) n)
                     (descendants (size (soup w)) (soup w) root))).

(** Reading a tag object. *)
Definition tag_of (i : nat) : M Tag :=
  fun w => match tag_at (soup w) i with
           | Some t => (w, Ok t)
           | None => (w, Raise (AttributeError "attrs"))
           end.

(** [el.find_parent()]: the immediate parent, or [None]. *)
Definition find_parent (i : nat) : M (option nat) :=
  t ← tag_of i; mret (parent t).

(** [html.new_tag(n, **a)]: a fresh tag outside every tree. *)
Definition new_tag (n : string) (a : gmap string string) : M nat :=
  fun w =>
    let i := fresh (dom (soup w)) in
    (set_soup (<[i := ETag (mkTag n a None [])]> (soup w)) w, Ok i).

Fixpoint replace_first (old new : nat) (l : list nat) : list nat :=
  match l with
  | [] => []
  | x :: r => if (x =? old)%nat then new :: r else x :: replace_first old new r
  end.

Definition set_parent (up : option nat) (e : PageElement) : PageElement :=
  match e with
  | ETag t => ETag (mkTag (name t) (attrs t) up (contents t))
  | NavigableString s _ => NavigableString s up
  end.

Definition node_parent (e : PageElement) : option nat :=
  match e with
  | ETag t => parent t
  | NavigableString _ up => up
  end.

(** [old.replace_with(new)]: refused when [old] is not part of a tree;
    otherwise [new] takes the place of [old] among the parent's contents
    and [old] is left without a parent (its own contents stay). *)
Definition replace_with (old new : nat) : M unit :=
  fun w =>
    let d := soup w in
    match d !! old with
    | None => (w, Raise (AttributeError "parent"))
    | Some e =>
        match node_parent e with
        | None =>
            (w, Raise (ValueError
              "Cannot replace one element with another when the element to be replaced is not part of a tree."))
        | Some pid =>
            match tag_at d pid with
            | None => (w, Raise (AttributeError "index"))
            | Some pt =>
                let d1 := <[pid := ETag (mkTag (name pt) (attrs pt) (parent pt)
                                          (replace_first old new (contents pt)))]> d in
                let d2 := <[old := set_parent None e]> d1 in
                let d3 := alter (set_parent (Some pid)) new d2 in
                (set_soup d3 w, Ok tt)
            end
        end
    end.

End Soup.

(** ** The script *)

Record Options := mkOptions {
  output_folder : string;
  new_root : string;
  front_alias : bool;
  num_posts : option Z
}.

Section Script.

Context `{Collaborators}.

(** [check_if_file_exists(path, original_path)]: defined by the script,
    called by none of its functions.  The logged message is left out. *)
Definition check_if_file_exists (path : Path) (original_path : string) : M unit :=
  fun w => match Fs.lookup (fs w) path with
           | Some _ => (w, Raise (SystemExit 1))
           | None => (w, Ok tt)
           end.

(** The state once a request for [image_src] is on the log. *)
Definition logged (image_src : string) (w : World) : World :=
  set_requests (requests w ++ [image_src]) w.

(** The message of the exception [download_and_save_image] raises. *)
Definition download_error (image_src : string) (status : Z) : string :=
  "Can't download image " +:+ image_src +:+ " ; Status code " +:+ pretty status.

(** [download_and_save_image(image_src, fullimg_path)] *)
Definition download_and_save_image (image_src : string) (fullimg_path : Path)
  : M unit :=
  modify (logged image_src);;
  let response := requests_get image_src in
  if bool_decide (status_code response ≠ 200%Z)
  then raise (Exception (download_error image_src (status_code response)))
  else on_fs (Fs.write fullimg_path (content response)).

(** The inner function of [get_src_resize_if_needed]. *)
Definition resize_if_needed (img_attrs : gmap string string)
    (src size_name orig_size_name : string) : string :=
  match img_attrs !! size_name, img_attrs !! orig_size_name with
  | Some size, Some orig_size =>
      PyStr.replace ("/s" +:+ size +:+ "/") ("/s" +:+ orig_size +:+ "/") src
  | _, _ => src
  end.

(** [get_src_resize_if_needed(img_attrs)] *)
Definition get_src_resize_if_needed (img_attrs : gmap string string)
  : Outcome string :=
  match getitem img_attrs "src" with
  | Raise e => Raise e
  | Ok src =>
      let src := resize_if_needed img_attrs src "height" "data-original-height" in
      let src := resize_if_needed img_attrs src "width" "data-original-width" in
      Ok src
  end.

(** [has_identical_extension(a, b)] *)
Definition has_identical_extension (a b : string) : bool :=
  bool_decide (last (PyStr.split "." a) = last (PyStr.split "." b)).

(** The choice of lines 83 to 90: the node to replace and the address to
    fetch.  [parent['href']] is read only when the parent is an [a]. *)
Definition choose_target (img : nat) (href : string) (up : option nat)
  : M (nat * string) :=
  match up with
  | None => raise (AttributeError "name")
  | Some pid =>
      pt ← Soup.tag_of pid;
      if String.eqb (name pt) "a"
      then
        phref ← lift (getitem (attrs pt) "href");
        if has_identical_extension href phref
        then mret (pid, phref)
        else mret (img, href)
      else mret (img, href)
  end.

(** The body of the loop of [replace_images_with_downloaded], for one
    element of [html.find_all('img')]. *)
Definition replace_image (html : nat) (folder : Path) (img : nat) : M unit :=
  t ← Soup.tag_of img;
  match attrs t !! "src" with
  | None => mret tt
  | Some _ =>
      href ← lift (get_src_resize_if_needed (attrs t));
      up ← Soup.find_parent img;
      '(target_tag, href) ← choose_target img href up;
      let href := re_sub_size_h href in
      let nm := PathOps.name (PathOps.parse (urlparse_path href)) in
      download_and_save_image href (folder // nm);;
      new_img ← Soup.new_tag "img" {[ "src" := nm ]};
      Soup.replace_with target_tag new_img
  end.

(** [replace_images_with_downloaded(html, folder)] *)
Definition replace_images_with_downloaded (html : nat) (folder : Path)
  : M nat :=
  imgs ← Soup.find_all html "img";
  for_each (replace_image html folder) imgs;;
  mret html.

(** [get_post_entries(xml_root)] *)
Definition is_post_category (c : Element) : Outcome bool :=
  match getitem (attrib c) "scheme" with
  | Raise e => Raise e
  | Ok scheme =>
      if String.eqb scheme CATEGORY_KIND
      then match getitem (attrib c) "term" with
           | Raise e => Raise e
           | Ok term => Ok (String.eqb term TERM_POST)
           end
      else Ok false
  end.

Fixpoint any_post_category (cs : list Element) : Outcome bool :=
  match cs with
  | [] => Ok false
  | c :: r =>
      match is_post_category c with
      | Raise e => Raise e
      | Ok true => Ok true
      | Ok false => any_post_category r
      end
  end.

Fixpoint filter_posts (entries : list Element) : Outcome (list Element) :=
  match entries with
  | [] => Ok []
  | e :: r =>
      match any_post_category (findall e "category") with
      | Raise x => Raise x
      | Ok b =>
          match filter_posts r with
          | Raise x => Raise x
          | Ok l => Ok (if b then e :: l else l)
          end
      end
  end.

Definition get_post_entries (xml_root : Element) : Outcome (list Element) :=
  filter_posts (findall xml_root "entry").

(** [get_post_tags(post)] *)
Fixpoint collect_tags (cs : list Element) : Outcome (list string) :=
  match cs with
  | [] => Ok []
  | c :: r =>
      match getitem (attrib c) "scheme" with
      | Raise e => Raise e
      | Ok scheme =>
          if String.eqb scheme CATEGORY_TAG
          then match getitem (attrib c) "term" with
               | Raise e => Raise e
               | Ok term =>
                   match collect_tags r with
                   | Raise e => Raise e
                   | Ok l => Ok (term :: l)
                   end
               end
          else collect_tags r
      end
  end.

Definition get_post_tags (post : Element) : Outcome (list string) :=
  collect_tags (findall post "category").

(** [next((e.get('href') for e in post.findall('atom:link', NS)
          if e.get('rel') == 'alternate'), None)] *)
Definition is_alternate (e : Element) : bool :=
  bool_decide (attrib e !! "rel" = Some "alternate").

Definition find_published_url (post : Element) : option string :=
  match List.filter is_alternate (findall post "link") with
  | e :: _ => attrib e !! "href"
  | [] => None
  end.

(** Python truth of an optional string: [None] and [''] are false. *)
Definition truthy (o : option string) : bool :=
  match o with
  | None | Some EmptyString => false
  | Some _ => true
  end.

(** ['{:04}-{:02}-{:02}'.format(year, month, day)] *)
Definition format_date (d : datetime) : string :=
  PyStr.zfill 4 (pretty (year d)) +:+ "-" +:+ PyStr.zfill 2 (pretty (month d))
  +:+ "-" +:+ PyStr.zfill 2 (pretty (day d)).

(** What the two branches of [process_post] compute. *)
Record Resolved := mkResolved {
  slug : string;
  post_folder : Path;
  aliases : list string
}.

Definition resolve_draft (root_folder : Path) (title : option string)
    (published_date : string) : M Resolved :=
  slug ← lift (slugify title);
  mret (mkResolved slug
          (root_folder // "draft_posts" // (published_date +:+ "-" +:+ slug))
          []).

Definition resolve_published (options : Options) (root_folder : Path)
    (published : datetime) (published_date published_url : string)
  : M Resolved :=
  let p := PathOps.parse (urlparse_path published_url) in
  let slug := PathOps.stem p in
  let post_folder :=
    root_folder // "post" // PyStr.zfill 4 (pretty (year published))
                // (published_date +:+ "-" +:+ slug) in
  let aliases := [PathOps.str p] in
  let new_url :=
    new_root options +:+ PathOps.str (PathOps.parent p) +:+ "/" +:+ PathOps.stem p in
  modify (fun w => set_url_map (url_map w ++ [(published_url, new_url)]) w);;
  mret (mkResolved slug post_folder aliases).

(** The first half of [process_post], up to the branch on
    [published_url]. *)
Definition resolve_post (post : Element) (options : Options)
  : M (option string * Resolved * string) :=
  title ← lift (find_text post "title");
  let root_folder := PathOps.parse (output_folder options) in
  let published_url := find_published_url post in
  published_str ← lift (find_text post "published");
  published ← lift (dateutil_parse published_str);
  let published_date := format_date published in
  r ← (if negb (truthy published_url)
       then resolve_draft root_folder title published_date
       else resolve_published options root_folder published published_date
              (default EmptyString published_url));
  mret (title, r, published_date).

Definition author_name_of (post : Element) : Outcome (option string) :=
  match find post "author" with
  | None => Raise (AttributeError "find")
  | Some a => find_text a "name"
  end.

Definition metadata_dict (title : option string) (slug published_date : string)
    (author_name : option string) (tags : list string)
    (aliases : list string) (front_alias : bool) : gmap string PyValue :=
  let d : gmap string PyValue :=
    <["tags" := PyList tags]>
      (<["author" := py_opt author_name]>
        (<["published" := PyString published_date]>
          (<["slug" := PyString slug]>
            (<["title" := py_opt title]> ∅)))) in
  match aliases with
  | _ :: _ => if front_alias then <["aliases" := PyList aliases]> d else d
  | [] => d
  end.

Definition render_index (front_matter mkd : string) : string :=
  "---" +:+ String "010" EmptyString +:+ front_matter +:+ String "010" EmptyString
  +:+ "---" +:+ String "010" EmptyString +:+ mkd.

(** The second half of [process_post], from the creation of the folder
    on. *)
Definition convert_post (post : Element) (options : Options)
    (title : option string) (r : Resolved) (published_date : string) : M unit :=
  on_fs (Fs.mkdir_parents (post_folder r));;
  content ← lift (find_text post "content");
  author_name ← lift (author_name_of post);
  tags ← lift (get_post_tags post);
  '(nodes, root) ← lift (bs content);
  modify (set_soup nodes);;
  html ← replace_images_with_downloaded root (post_folder r);
  w ← get;
  mkd ← lift (pandoc_convert_text (soup w) html);
  let mkd := PyStr.strip mkd in
  let md := metadata_dict title (slug r) published_date author_name tags
              (aliases r) (front_alias options) in
  let front_matter := PyStr.strip (yaml_dump md) in
  on_fs (Fs.write (post_folder r // "index.md") (render_index front_matter mkd)).

(** [process_post(post, options, url_map)] *)
Definition process_post (post : Element) (options : Options) : M unit :=
  '(title, r, published_date) ← resolve_post post options;
  convert_post post options title r published_date.

(** [posts[:n]] *)
Definition slice_to {A} (n : option Z) (l : list A) : list A :=
  match n with
  | None => l
  | Some z =>
      if (0 <=? z)%Z then take (Z.to_nat z) l
      else take (List.length l - Z.to_nat (- z)) l
  end.

Definition url_map_text (m : list (string * string)) : string :=
  String.concat EmptyString
    (List.map (fun '(o, n) => o +:+ "," +:+ n +:+ "," +:+ String "010" EmptyString) m).

(** [main], from the parsed tree on.  The [url_map] list starts empty. *)
Definition main (xml_root : Element) (options : Options) : M unit :=
  posts ← lift (get_post_entries xml_root);
  let posts := slice_to (num_posts options) posts in
  modify (set_url_map []);;
  for_each (fun post => process_post post options) posts;;
  w ← get;
  on_fs (Fs.write (PathOps.parse (output_folder options) // "url_map.csv")
           (url_map_text (url_map w))).

End Script.


(** ** Reading an [index.md] back *)

Definition newline : string := String "010" EmptyString.

(** The lines before the first line that is exactly three hyphens. *)
Fixpoint until_delimiter (ls : list string) : option (list string) :=
  match ls with
  | [] => None
  | l :: r =>
      if String.eqb l "---" then Some []
      else match until_delimiter r with
           | Some b => Some (l :: b)
           | None => None
           end
  end.

(** The front-matter block of a document: the text between the opening
    line of three hyphens and the next such line. *)
Definition front_matter_block (doc : string) : option string :=
  match PyStr.split "010" doc with
  | first :: r =>
      if String.eqb first "---"
      then match until_delimiter r with
           | Some b => Some (PyStr.join newline b)
           | None => None
           end
      else None
  | [] => None
  end.

(** ** Predicates of the statements *)

Definition no_char (c : ascii) (s : string) : Prop :=
  Forall (fun a => a ≠ c) (list_ascii_of_string s).

Definition all_digits (s : string) : Prop :=
  Forall (fun a => PyStr.is_digit a = true) (list_ascii_of_string s).

(** [old] starts at none of the first [n] positions of [s]. *)
Fixpoint no_occurrence_before (old : string) (n : nat) (s : string) : Prop :=
  match n, s with
  | S k, String _ t => String.prefix old s = false /\ no_occurrence_before old k t
  | _, _ => True
  end.

(** No match of the size pattern starts at the first [n] positions. *)
Fixpoint no_size_h_before (n : nat) (s : string) : Prop :=
  match n, s with
  | S k, String _ t => size_h_match s = None /\ no_size_h_before k t
  | _, _ => True
  end.

(** Rewriting the size token [/s<rendered>/] to [/s<original>/]. *)
Definition rewrite_size (rendered original s : string) : string :=
  PyStr.replace ("/s" +:+ rendered +:+ "/") ("/s" +:+ original +:+ "/") s.

(** In the tree [d'] the node [old] of [d] has been replaced by a fresh
    [img] element whose only attribute is [src = nm]: the new element sits
    where [old] was among the contents of the parent of [old], [old] itself
    is outside the tree with its contents kept, and every other node is as
    before. *)
Definition replaced_by_local_image (d d' : gmap nat PageElement)
    (old : nat) (nm : string) : Prop :=
  exists new pid e pt,
    d !! new = None
    /\ d !! old = Some e
    /\ Soup.node_parent e = Some pid
    /\ Soup.tag_at d pid = Some pt
    /\ d' !! new = Some (ETag (mkTag "img" {[ "src" := nm ]} (Some pid) []))
    /\ d' !! old = Some (Soup.set_parent None e)
    /\ Soup.tag_at d' pid
       = Some (mkTag (name pt) (attrs pt) (parent pt)
                 (Soup.replace_first old new (contents pt)))
    /\ forall j, j ≠ new -> j ≠ old -> j ≠ pid -> d' !! j = d !! j.

(** The destination [p] can be opened for writing in [f]: it is not a
    directory and its parent is one. *)
Definition writable (f : gmap string FsEntry) (p : Path) : Prop :=
  Fs.lookup f p ≠ Some Dir /\ Fs.lookup f (PathOps.parent p) = Some Dir.

(** A single path component: not empty, not [.], without a slash. *)
Definition clean_component (s : string) : Prop :=
  s ≠ EmptyString /\ s ≠ "." /\ no_char "/" s.

(** Every run of [m] relates the state before to the state after. *)
Definition preserves {A} (R : World -> World -> Prop) (m : M A) : Prop :=
  forall w, R w (m w).1.

(** What the conversion of a post leaves alone: the [url_map] list and the
    directories that exist. *)
Definition post_frame (w w' : World) : Prop :=
  url_map w' = url_map w
  /\ forall p, Fs.lookup (fs w) p = Some Dir -> Fs.lookup (fs w') p = Some Dir.

(** What the resolution of a post leaves alone: everything but the
    [url_map] list. *)
Definition resolve_frame (w w' : World) : Prop :=
  fs w' = fs w /\ requests w' = requests w /\ soup w' = soup w.

(** The test [not published_url] of [process_post]. *)
Definition is_draft (post : Element) : bool :=
  negb (truthy (find_published_url post)).

(** The post has a link element with [rel='alternate']. *)
Definition has_alternate_link (post : Element) : bool :=
  existsb is_alternate (findall post "link").

(** ** A concrete set of collaborators for the examples *)

Module Demo.

Fixpoint digits_value (s : string) (acc : N) : option N :=
  match s with
  | EmptyString => Some acc
  | String c t =>
      if PyStr.is_digit c
      then digits_value t (acc * 10 + (N_of_ascii c - 48))%N
      else None
  end.

(** Dates that start with [YYYY-MM-DD]. *)
Definition parse_date (o : option string) : Outcome datetime :=
  match o with
  | None => Raise (LibraryError "dateutil")
  | Some s =>
      match digits_value (String.substring 0 4 s) 0,
            digits_value (String.substring 5 2 s) 0,
            digits_value (String.substring 8 2 s) 0 with
      | Some y, Some m, Some d =>
          if (String.length s <? 10)%nat then Raise (LibraryError "dateutil")
          else Ok (mkDatetime y m d)
      | _, _, _ => Raise (LibraryError "dateutil")
      end
  end.

Definition slug_char (c : ascii) : string :=
  let n := nat_of_ascii c in
  if ((65 <=? n) && (n <=? 90))%nat then String (ascii_of_nat (n + 32)) EmptyString
  else if ((97 <=? n) && (n <=? 122))%nat || PyStr.is_digit c then String c EmptyString
  else if (n =? 32)%nat then "-"
  else EmptyString.

Fixpoint slug_of (s : string) : string :=
  match s with
  | EmptyString => EmptyString
  | String c t => slug_char c +:+ slug_of t
  end.

Definition slugify (o : option string) : Outcome string :=
  match o with
  | Some s => Ok (slug_of s)
  | None => Raise (LibraryError "slugify")
  end.

Fixpoint until_any (stops : list ascii) (s : string) : string :=
  match s with
  | EmptyString => EmptyString
  | String c t =>
      if existsb (Ascii.eqb c) stops then EmptyString
      else String c (until_any stops t)
  end.

Fixpoint from_char (c : ascii) (s : string) : string :=
  match s with
  | EmptyString => EmptyString
  | String a t => if Ascii.eqb a c then s else from_char c t
  end.

Fixpoint after_scheme (s : string) : option string :=
  match s with
  | String ":" (String "/" (String "/" t)) => Some t
  | String _ t => after_scheme t
  | EmptyString => None
  end.

(** The path of [scheme://host/path?query#fragment] addresses. *)
Definition urlparse_path (url : string) : string :=
  match after_scheme url with
  | Some r => until_any ["?"; "#"]%char (from_char "/" (until_any ["?"; "#"]%char r))
  | None => until_any ["?"; "#"]%char url
  end.

Definition tag_node (n : string) (a : list (string * string)) (up : option nat)
    (cs : list nat) : PageElement :=
  ETag (mkTag n (list_to_map a) up cs).

(** The parse trees of a few bodies, as [html.parser] builds them: node 0
    is the BeautifulSoup object, the other nodes are numbered in document
    order. *)
Definition body_resized : string :=
  "<img height='320' data-original-height='1600' src='http://b.example/x/s320/img.jpg'>".

Definition resized_attrs : list (string * string) :=
  [("height", "320"); ("data-original-height", "1600");
   ("src", "http://b.example/x/s320/img.jpg")].

Definition tree_resized : gmap nat PageElement :=
  list_to_map
    [ (0, tag_node "[document]" [] None [1]);
      (1, tag_node "img" resized_attrs (Some 0) []) ].

Definition body_link : string :=
  "<a href='http://h.example/i/s1600-h/full.png'><img src='http://h.example/i/thumb.png'></a>".

Definition tree_link : gmap nat PageElement :=
  list_to_map
    [ (0, tag_node "[document]" [] None [1]);
      (1, tag_node "a" [("href", "http://h.example/i/s1600-h/full.png")] (Some 0) [2]);
      (2, tag_node "img" [("src", "http://h.example/i/thumb.png")] (Some 1) []) ].

Definition body_no_href : string :=
  "<a name='top'><img src='http://h.example/i/x.png'></a>".

Definition tree_no_href : gmap nat PageElement :=
  list_to_map
    [ (0, tag_node "[document]" [] None [1]);
      (1, tag_node "a" [("name", "top")] (Some 0) [2]);
      (2, tag_node "img" [("src", "http://h.example/i/x.png")] (Some 1) []) ].

Definition body_two_in_link : string :=
  "<a href='http://h.example/i/big.png'><img src='http://h.example/i/1.png'><img src='http://h.example/i/2.png'></a>".

Definition tree_two_in_link : gmap nat PageElement :=
  list_to_map
    [ (0, tag_node "[document]" [] None [1]);
      (1, tag_node "a" [("href", "http://h.example/i/big.png")] (Some 0) [2; 3]);
      (2, tag_node "img" [("src", "http://h.example/i/1.png")] (Some 1) []);
      (3, tag_node "img" [("src", "http://h.example/i/2.png")] (Some 1) []) ].

Definition body_same_name : string :=
  "<p><img src='http://h.example/a/pic.png'>and<img src='http://h.example/b/pic.png'></p>".

Definition tree_same_name : gmap nat PageElement :=
  list_to_map
    [ (0, tag_node "[document]" [] None [1]);
      (1, tag_node "p" [] (Some 0) [2; 3; 4]);
      (2, tag_node "img" [("src", "http://h.example/a/pic.png")] (Some 1) []);
      (3, NavigableString "and" (Some 1));
      (4, tag_node "img" [("src", "http://h.example/b/pic.png")] (Some 1) []) ].

Definition body_text : string := "<p>Hello</p>".

Definition tree_text : gmap nat PageElement :=
  list_to_map
    [ (0, tag_node "[document]" [] None [1]);
      (1, tag_node "p" [] (Some 0) [2]);
      (2, NavigableString "Hello" (Some 1)) ].

Definition trees : list (string * gmap nat PageElement) :=
  [ (body_resized, tree_resized); (body_link, tree_link);
    (body_no_href, tree_no_href); (body_two_in_link, tree_two_in_link);
    (body_same_name, tree_same_name); (body_text, tree_text) ].

Fixpoint assoc {A} (k : string) (l : list (string * A)) : option A :=
  match l with
  | [] => None
  | (k', v) :: r => if String.eqb k k' then Some v else assoc k r
  end.

Definition bs (content : option string) : Outcome (gmap nat PageElement * nat) :=
  match content with
  | None => Raise (LibraryError "bs4")
  | Some c =>
      match assoc c trees with
      | Some t => Ok (t, 0)
      | None => Raise (LibraryError "bs4")
      end
  end.

(** The network of the examples: what each address answers. *)
Definition served : list (string * Response) :=
  [ ("http://b.example/x/s1600/img.jpg", mkResponse 200 "JPEG-1600");
    ("http://h.example/i/s1600/full.png", mkResponse 200 "PNG-full");
    ("http://h.example/i/thumb.png", mkResponse 200 "PNG-thumb");
    ("http://h.example/i/x.png", mkResponse 200 "PNG-x");
    ("http://h.example/i/big.png", mkResponse 200 "PNG-big");
    ("http://h.example/i/1.png", mkResponse 200 "PNG-1");
    ("http://h.example/i/2.png", mkResponse 200 "PNG-2");
    ("http://h.example/a/pic.png", mkResponse 200 "PNG-a");
    ("http://h.example/b/pic.png", mkResponse 200 "PNG-b") ].

Definition requests_get (url : string) : Response :=
  match assoc url served with
  | Some r => r
  | None => mkResponse 404 "Not Found"
  end.

Definition pandoc_convert_text (d : gmap nat PageElement) (root : nat)
  : Outcome string :=
  Ok ("converted body" +:+ newline).

(** A block-style YAML writer: keys in sorted order, every string in
    single quotes, one list item per line. *)
Definition quoted (s : string) : string := "'" +:+ s +:+ "'".

Definition yaml_entry (k : string) (v : PyValue) : string :=
  match v with
  | PyNone => k +:+ ": null" +:+ newline
  | PyString s => k +:+ ": " +:+ quoted s +:+ newline
  | PyList [] => k +:+ ": []" +:+ newline
  | PyList l =>
      k +:+ ":" +:+ newline
      +:+ String.concat EmptyString (List.map (fun x => "- " +:+ quoted x +:+ newline) l)
  end.

Definition yaml_keys : list string :=
  ["aliases"; "author"; "published"; "slug"; "tags"; "title"].

Definition yaml_dump (d : gmap string PyValue) : string :=
  String.concat EmptyString
    (List.map (fun k => match d !! k with
                        | Some v => yaml_entry k v
                        | None => EmptyString
                        end) yaml_keys).

Definition libs : Collaborators :=
  Build_Collaborators requests_get urlparse_path parse_date slugify bs
    pandoc_convert_text yaml_dump.

(** Entries of an export. *)
Definition element (t : string) (a : list (string * string))
    (x : option string) (cs : list Element) : Element :=
  mkElement (atom t) (list_to_map a) x cs.

Definition entry (title body : string) (links : list Element) : Element :=
  element "entry" [] None
    ([ element "title" [] (Some title) [];
       element "published" [] (Some "2019-03-05T10:00:00.000-07:00") [];
       element "content" [] (Some body) [];
       element "author" [] None [element "name" [] (Some "Ann") []];
       element "category" [("scheme", CATEGORY_TAG); ("term", "rocq")] None [];
       element "category" [("scheme", CATEGORY_TAG); ("term", "blog")] None [];
       element "category" [("scheme", CATEGORY_KIND); ("term", TERM_POST)] None [] ]
     ++ links).

Definition alternate (href : string) : Element :=
  element "link" [("rel", "alternate"); ("type", "text/html"); ("href", href)] None [].

Definition post_published : Element :=
  entry "Hello World" body_link [alternate "https://old.example/2019/03/my-post.html"].

Definition post_draft : Element := entry "Hello World" body_text [].

(** An alternate link without an address. *)
Definition post_alternate_no_href : Element :=
  entry "Hello World" body_text
    [element "link" [("rel", "alternate"); ("type", "text/html")] None []].


Definition post_same_name : Element := entry "Two pictures" body_same_name [].

Definition post_no_href : Element := entry "Anchor" body_no_href [].

Definition options : Options := mkOptions "out" "/blog" true None.

Definition empty_world : World := mkWorld ∅ [] ∅ [].

(** A state in the middle of a post: the folder exists and the body has
    been parsed. *)
Definition folder : Path := PathOps.parse "out/draft_posts/2019-03-05-hello-world".

Definition in_post (tree : gmap nat PageElement) : World :=
  mkWorld (list_to_map [("out", Dir); ("out/draft_posts", Dir);
                        ("out/draft_posts/2019-03-05-hello-world", Dir)])
    [] tree [].

End Demo.

(** ** Predicates of the statements on the rest of the script *)

(** The category marks its entry as a post. *)
Definition is_post_kind (c : Element) : bool :=
  bool_decide (attrib c !! "scheme" = Some CATEGORY_KIND
               /\ attrib c !! "term" = Some TERM_POST).

(** The entry has a category that marks it as a post. *)
Definition is_post_entry (e : Element) : bool :=
  existsb is_post_kind (findall e "category").

(** What [get_post_entries] needs of a category to read it: a [scheme],
    and a [term] when the scheme is the kind scheme. *)
Definition kind_readable (c : Element) : Prop :=
  exists s, attrib c !! "scheme" = Some s
            /\ (s = CATEGORY_KIND -> is_Some (attrib c !! "term")).

(** What [get_post_tags] needs of a category to read it: a [scheme], and a
    [term] when the scheme is the tag scheme. *)
Definition tag_readable (c : Element) : Prop :=
  exists s, attrib c !! "scheme" = Some s
            /\ (s = CATEGORY_TAG -> is_Some (attrib c !! "term")).

(** The term of a category with the tag scheme. *)
Definition tag_term (c : Element) : option string :=
  if bool_decide (attrib c !! "scheme" = Some CATEGORY_TAG)
  then attrib c !! "term" else None.

(** One line of [url_map.csv], without its end of line. *)
Definition url_map_line (e : string * string) : string :=
  e.1 +:+ "," +:+ e.2 +:+ ",".

(** The destination of [url_map.csv]. *)
Definition url_map_file (options : Options) : Path :=
  PathOps.parse (output_folder options) // "url_map.csv".

(** The path [p] is [folder] or lies directly in it. *)
Definition in_folder (folder p : Path) : Prop :=
  p = folder \/ exists nm, p = mkPath (p_root folder) (p_parts folder ++ [nm]).

(** The files of [w] that are neither at [folder] nor directly in it are
    the same in [w']. *)
Definition other_files_kept (folder : Path) (w w' : World) : Prop :=
  forall k data,
    (forall p, in_folder folder p -> k ≠ PathOps.str p) ->
    fs w !! k = Some (File data) -> fs w' !! k = Some (File data).

(** The list [url_map] has only grown, by at most [n] pairs. *)
Definition url_map_grown (n : nat) (w w' : World) : Prop :=
  exists l, url_map w' = url_map w ++ l /\ List.length l <= n.

(** The text after the last dot of an address, as
    [has_identical_extension] reads it. *)
Definition extension (a : string) : option string := last (PyStr.split "." a).

(** ** More concrete inputs for the examples *)

Module Demo2.

Import Demo.

(** A page of the export: the kind scheme with another term. *)
Definition page : Element :=
  element "entry" [] None
    [ element "title" [] (Some "About") [];
      element "category"
        [("scheme", CATEGORY_KIND);
         ("term", "http://schemas.google.com/blogger/2008/kind#page")] None [] ].

(** A post whose mark is followed by a category without [scheme]. *)
Definition entry_marked_first : Element :=
  element "entry" [] None
    [ element "title" [] (Some "Marked") [];
      element "category" [("scheme", CATEGORY_KIND); ("term", TERM_POST)] None [];
      element "category" [("term", "loose")] None [] ].

(** An entry whose first category has no [scheme]. *)
Definition entry_no_scheme : Element :=
  element "entry" [] None
    [ element "title" [] (Some "Loose") [];
      element "category" [("term", "loose")] None [];
      element "category" [("scheme", CATEGORY_KIND); ("term", TERM_POST)] None [] ].

(** A post without [title] element. *)
Definition entry_no_title : Element :=
  element "entry" [] None
    [ element "published" [] (Some "2019-03-05T10:00:00.000-07:00") [];
      element "category" [("scheme", CATEGORY_KIND); ("term", TERM_POST)] None [] ].

(** A draft without [content] element. *)
Definition entry_no_content : Element :=
  element "entry" [] None
    [ element "title" [] (Some "Hello World") [];
      element "published" [] (Some "2019-03-05T10:00:00.000-07:00") [];
      element "category" [("scheme", CATEGORY_KIND); ("term", TERM_POST)] None [] ].

Definition feed (entries : list Element) : Element :=
  element "feed" [] None (element "title" [] (Some "A blog") [] :: entries).

(** Bodies with an image that is not served and with an image whose
    address has the path [/]. *)
Definition tree_gone : gmap nat PageElement :=
  list_to_map
    [ (0, tag_node "[document]" [] None [1]);
      (1, tag_node "img" [("src", "http://h.example/gone.png")] (Some 0) []) ].

Definition tree_slash : gmap nat PageElement :=
  list_to_map
    [ (0, tag_node "[document]" [] None [1]);
      (1, tag_node "img" [("src", "http://h.example/")] (Some 0) []) ].

(** The network of the examples, with one more address served. *)
Definition requests_get (url : string) : Response :=
  if String.eqb url "http://h.example/" then mkResponse 200 "<html>"
  else Demo.requests_get url.

Definition libs : Collaborators :=
  Build_Collaborators requests_get urlparse_path parse_date slugify bs
    pandoc_convert_text yaml_dump.

(** A state with a file of its own beside the output folder. *)
Definition with_notes : World :=
  mkWorld (list_to_map [("notes.txt", File "keep me")]) [] ∅ [].

End Demo2.
(** ** Running the monad *)

Lemma run_bind {A B} (m : M A) (k : A -> M B) (w : World) :
  (m ≫= k) w = match m w with
               | (w', Ok a) => k a w'
               | (w', Raise e) => (w', Raise e)
               end.
Proof. reflexivity. Qed.

Lemma run_bind_ok {A B} (m : M A) (k : A -> M B) w w' a :
  m w = (w', Ok a) -> (m ≫= k) w = k a w'.
Proof. intros E. rewrite run_bind, E. reflexivity. Qed.

Lemma run_bind_raise {A B} (m : M A) (k : A -> M B) w w' e :
  m w = (w', Raise e) -> (m ≫= k) w = (w', Raise e).
Proof. intros E. rewrite run_bind, E. reflexivity. Qed.

Lemma run_ret {A} (a : A) w : (mret a : M A) w = (w, Ok a).
Proof. reflexivity. Qed.

Lemma run_lift {A} (o : Outcome A) w : lift o w = (w, o).
Proof. reflexivity. Qed.

Lemma for_each_cons {A} (body : A -> M unit) x l w :
  for_each body (x :: l) w
  = match body x w with
    | (w', Ok _) => for_each body l w'
    | (w', Raise e) => (w', Raise e)
    end.
Proof. reflexivity. Qed.

(** The loop stops at the first element whose body raises. *)
Lemma for_each_raise {A} (body : A -> M unit) l1 x l2 w w1 w2 e :
  for_each body l1 w = (w1, Ok tt) ->
  body x w1 = (w2, Raise e) ->
  for_each body (l1 ++ x :: l2) w = (w2, Raise e).
Proof.
  revert w. induction l1 as [|y l1 IH]; intros w H1 H2; simpl in *.
  - inversion H1; subst. rewrite run_bind, H2. reflexivity.
  - rewrite run_bind in *. destruct (body y w) as [w' [[]|e']].
    + apply IH; assumption.
    + discriminate.
Qed.

(** ** String rewriting *)

Lemma app_cons c (x y : string) : String c x +:+ y = String c (x +:+ y).
Proof. reflexivity. Qed.

Lemma app_nil_l (y : string) : EmptyString +:+ y = y.
Proof. reflexivity. Qed.

(** Push [+:+] under the constructors of its first argument. *)
Ltac sapp := repeat (rewrite !app_cons in * || rewrite !app_nil_l in *).

Lemma prefix_cons a b (x y : string) :
  String.prefix (String a x) (String b y)
  = if ascii_dec a b then String.prefix x y else false.
Proof. reflexivity. Qed.

Lemma prefix_app (x y : string) : String.prefix x (x +:+ y) = true.
Proof.
  induction x as [|c x IH]; sapp.
  - destruct y; reflexivity.
  - rewrite prefix_cons. destruct (ascii_dec c c); [assumption | congruence].
Qed.

Lemma append_assoc (x y z : string) : (x +:+ y) +:+ z = x +:+ y +:+ z.
Proof. induction x; sapp; congruence. Qed.

Lemma append_empty_r (x : string) : x +:+ EmptyString = x.
Proof. induction x; sapp; congruence. Qed.

Lemma replace_go_skip old new x post :
  PyStr.replace_go old new (x +:+ post) (String.length x)
  = PyStr.replace_go old new post 0.
Proof.
  induction x as [|c x IH]; sapp; simpl.
  - destruct post; reflexivity.
  - exact IH.
Qed.

(** [replace] rewrites the first occurrence of [old] and goes on after
    it. *)
Lemma replace_first_occurrence old new pre post :
  old ≠ EmptyString ->
  no_occurrence_before old (String.length pre) (pre +:+ old +:+ post) ->
  PyStr.replace old new (pre +:+ old +:+ post)
  = pre +:+ new +:+ PyStr.replace old new post.
Proof.
  intros Hold. destruct old as [|c o]; [congruence|]. unfold PyStr.replace.
  induction pre as [|a pre IH]; intros Hno.
  - rewrite app_nil_l, app_cons.
    cbn [PyStr.replace_go].
    rewrite <- app_cons, prefix_app.
    cbn [String.length]. replace (S (String.length o) - 1) with (String.length o) by lia.
    rewrite replace_go_skip. reflexivity.
  - rewrite !(app_cons a pre) in Hno |- *.
    cbn [String.length no_occurrence_before] in Hno. destruct Hno as [Hp Hrest].
    cbn [PyStr.replace_go]. rewrite Hp. rewrite ?app_cons. f_equal. apply IH. exact Hrest.
Qed.

(** A string in which [old] occurs nowhere is left as it is. *)
Lemma replace_no_occurrence old new s :
  old ≠ EmptyString ->
  no_occurrence_before old (String.length s) s ->
  PyStr.replace old new s = s.
Proof.
  intros Hold. destruct old as [|c o]; [congruence|]. unfold PyStr.replace.
  induction s as [|a s IH]; intros Hno; [reflexivity|].
  cbn [String.length no_occurrence_before] in Hno. destruct Hno as [Hp Hrest].
  cbn [PyStr.replace_go]. rewrite Hp. f_equal. apply IH. exact Hrest.
Qed.

Lemma span_digits_app d r :
  all_digits d ->
  String.prefix "-h/" r = true ->
  PyStr.span_digits (d +:+ r) = (d, r).
Proof.
  intros Hd Hr. induction d as [|c d IH]; sapp; simpl.
  - destruct r as [|c r]; [discriminate|]. rewrite prefix_cons in Hr.
    destruct (ascii_dec "-" c) as [<-|]; [|discriminate]. reflexivity.
  - unfold all_digits in *. simpl in Hd.
    inversion Hd as [|? ? Hc Hd']; subst. rewrite Hc, IH by assumption. reflexivity.
Qed.

Lemma size_h_match_here d post :
  all_digits d -> d ≠ EmptyString ->
  size_h_match ("/s" +:+ d +:+ "-h/" +:+ post) = Some d.
Proof.
  intros Hd Hne. sapp. cbn [size_h_match].
  rewrite span_digits_app; [|assumption|exact (prefix_app "-h/" post)].
  change (String "-" (String "h" (String "/" post))) with ("-h/" +:+ post).
  rewrite prefix_app. destruct d; [congruence|]. reflexivity.
Qed.

Lemma re_sub_go_skip x post :
  re_sub_go (x +:+ post) (String.length x) = re_sub_go post 0.
Proof.
  induction x as [|c x IH]; sapp; simpl.
  - destruct post; reflexivity.
  - exact IH.
Qed.

Lemma string_length_app (x y : string) :
  String.length (x +:+ y) = String.length x + String.length y.
Proof. induction x; sapp; simpl; congruence. Qed.

(** The substitution rewrites the first [/s<N>-h/] into [/s<N>/] and goes
    on after it. *)
Lemma re_sub_first_match pre d post :
  all_digits d -> d ≠ EmptyString ->
  no_size_h_before (String.length pre) (pre +:+ "/s" +:+ d +:+ "-h/" +:+ post) ->
  re_sub_size_h (pre +:+ "/s" +:+ d +:+ "-h/" +:+ post)
  = pre +:+ "/s" +:+ d +:+ "/" +:+ re_sub_size_h post.
Proof.
  intros Hd Hne. unfold re_sub_size_h.
  induction pre as [|a pre IH]; intros Hno.
  - pose proof (size_h_match_here d post Hd Hne) as Hm.
    rewrite app_nil_l. rewrite (app_cons "/") in *.
    cbn [re_sub_go]. rewrite Hm.
    replace ("s" +:+ d +:+ "-h/" +:+ post) with (("s" +:+ d +:+ "-h/") +:+ post)
      by (rewrite !append_assoc; reflexivity).
    replace (String.length d + 4) with (String.length ("s" +:+ d +:+ "-h/"))
      by (rewrite !string_length_app; simpl; lia).
    rewrite re_sub_go_skip. rewrite ?append_assoc. reflexivity.
  - rewrite !(app_cons a pre) in Hno |- *.
    cbn [String.length no_size_h_before] in Hno. destruct Hno as [Hp Hrest].
    cbn [re_sub_go]. rewrite Hp. rewrite ?app_cons. f_equal. apply IH. exact Hrest.
Qed.

(** An address without any [/s<N>-h/] is left as it is. *)
Lemma re_sub_no_match s :
  no_size_h_before (String.length s) s -> re_sub_size_h s = s.
Proof.
  unfold re_sub_size_h. induction s as [|a s IH]; intros Hno; [reflexivity|].
  cbn [String.length no_size_h_before] in Hno. destruct Hno as [Hp Hrest].
  cbn [re_sub_go]. rewrite Hp. f_equal. apply IH. exact Hrest.
Qed.

(** ** Characters of a string *)

Lemma no_char_cons c a s : no_char c (String a s) <-> a ≠ c /\ no_char c s.
Proof.
  unfold no_char. simpl. split.
  - inversion 1; subst; auto.
  - intros [? ?]. constructor; assumption.
Qed.

Lemma no_char_nil c : no_char c EmptyString.
Proof. constructor. Qed.

Lemma no_char_app c x y : no_char c (x +:+ y) <-> no_char c x /\ no_char c y.
Proof.
  induction x as [|a x IH]; sapp.
  - split; [intros Hy; split; [apply no_char_nil|exact Hy]|tauto].
  - rewrite !no_char_cons, IH. tauto.
Qed.

Lemma all_digits_cons a s :
  all_digits (String a s) <-> PyStr.is_digit a = true /\ all_digits s.
Proof.
  unfold all_digits. simpl. split.
  - inversion 1; subst; auto.
  - intros [? ?]. constructor; assumption.
Qed.

Lemma all_digits_app x y : all_digits x -> all_digits y -> all_digits (x +:+ y).
Proof.
  induction x as [|a x IH]; sapp; [tauto|].
  rewrite !all_digits_cons. tauto.
Qed.

Lemma digit_not_special a :
  PyStr.is_digit a = true -> a ≠ "/"%char /\ a ≠ "."%char.
Proof. intros Hd. split; intros ->; discriminate Hd. Qed.

Lemma all_digits_no_slash s : all_digits s -> no_char "/" s.
Proof.
  induction s as [|a s IH]; [intros _; apply no_char_nil|].
  rewrite all_digits_cons, no_char_cons. intros [Ha Hs].
  split; [apply digit_not_special, Ha|auto].
Qed.

Lemma pretty_N_char_digit x : PyStr.is_digit (pretty_N_char x) = true.
Proof. unfold pretty_N_char. repeat case_match; reflexivity. Qed.

Lemma pretty_N_go_digits x s : all_digits s -> all_digits (pretty_N_go x s).
Proof.
  revert s. induction (N.lt_wf_0 x) as [x _ IH]; intros s Hs.
  assert (x = 0 \/ 0 < x)%N as [->|Hx] by lia.
  - rewrite pretty_N_go_0. exact Hs.
  - rewrite pretty_N_go_step by done. apply IH.
    + apply N.div_lt; [exact Hx|reflexivity].
    + apply all_digits_cons. split; [apply pretty_N_char_digit|exact Hs].
Qed.

Lemma pretty_N_go_nonempty x s : s ≠ EmptyString -> pretty_N_go x s ≠ EmptyString.
Proof.
  revert s. induction (N.lt_wf_0 x) as [x _ IH]; intros s Hs.
  assert (x = 0 \/ 0 < x)%N as [->|Hx] by lia.
  - rewrite pretty_N_go_0. exact Hs.
  - rewrite pretty_N_go_step by done. apply IH.
    + apply N.div_lt; [exact Hx|reflexivity].
    + discriminate.
Qed.

(** The decimal rendering of a natural number: digits, at least one. *)
Lemma pretty_N_digits (n : N) : all_digits (pretty n) /\ pretty n ≠ EmptyString.
Proof.
  unfold pretty, pretty_N. case_decide as Hn.
  - split; [repeat constructor|discriminate].
  - assert (0 < n)%N as Hpos by lia.
    rewrite pretty_N_go_step by done. split.
    + apply pretty_N_go_digits, all_digits_cons.
      split; [apply pretty_N_char_digit|constructor].
    + apply pretty_N_go_nonempty. discriminate.
Qed.

Lemma zeros_digits k : all_digits (String.concat EmptyString (List.repeat "0" k)).
Proof.
  induction k as [|k IH]; [constructor|].
  destruct k as [|k]; [repeat constructor|].
  change (all_digits ("0" +:+ EmptyString +:+ String.concat EmptyString (List.repeat "0" (S k)))).
  sapp. apply all_digits_cons. split; [reflexivity|exact IH].
Qed.

Lemma zfill_digits w s :
  all_digits s -> s ≠ EmptyString ->
  all_digits (PyStr.zfill w s) /\ PyStr.zfill w s ≠ EmptyString.
Proof.
  intros Hs Hne. unfold PyStr.zfill. split.
  - apply all_digits_app; [apply zeros_digits|exact Hs].
  - destruct (String.concat _ _); sapp; [exact Hne|discriminate].
Qed.

(** ** Paths *)

Lemma split_no_sep sep s : no_char sep s -> PyStr.split sep s = [s].
Proof.
  induction s as [|a s IH]; [reflexivity|].
  rewrite no_char_cons. intros [Ha Hs]. simpl.
  destruct (Ascii.eqb_spec a sep); [contradiction|].
  rewrite (IH Hs). reflexivity.
Qed.

Lemma split_parts_no_sep sep s x : In x (PyStr.split sep s) -> no_char sep x.
Proof.
  revert x. induction s as [|a s IH]; intros x; simpl.
  - intros [<-|[]]. apply no_char_nil.
  - destruct (Ascii.eqb_spec a sep) as [->|Hne].
    + intros [<-|Hin]; [apply no_char_nil|auto].
    + destruct (PyStr.split sep s) as [|h r] eqn:E.
      * intros [<-|[]]. apply no_char_cons. split; [exact Hne|apply no_char_nil].
      * intros [<-|Hin].
        -- apply no_char_cons. split; [exact Hne|]. apply IH. left. reflexivity.
        -- apply IH. right. exact Hin.
Qed.

Lemma rel_parts_no_slash rel x : In x (PathOps.rel_parts rel) -> no_char "/" x.
Proof.
  unfold PathOps.rel_parts. intros Hin. apply filter_In in Hin as [Hin _].
  eapply split_parts_no_sep; eauto.
Qed.

Lemma rel_parts_clean s : clean_component s -> PathOps.rel_parts s = [s].
Proof.
  intros (Hne & Hnd & Hns). unfold PathOps.rel_parts.
  rewrite (split_no_sep _ _ Hns). simpl. unfold PathOps.keep_part.
  destruct (String.eqb_spec s EmptyString); [contradiction|].
  destruct (String.eqb_spec s "."); [contradiction|]. reflexivity.
Qed.

Lemma parse_relative c t :
  c ≠ "/"%char ->
  PathOps.parse (String c t) = mkPath EmptyString (PathOps.rel_parts (String c t)).
Proof.
  intros Hc. unfold PathOps.parse.
  destruct c as [[] [] [] [] [] [] [] []]; try reflexivity.
  exfalso. apply Hc. reflexivity.
Qed.

Lemma parse_parts_no_slash s x : In x (p_parts (PathOps.parse s)) -> no_char "/" x.
Proof.
  unfold PathOps.parse. destruct s as [|c t]; [apply rel_parts_no_slash|].
  destruct c as [[] [] [] [] [] [] [] []]; apply rel_parts_no_slash.
Qed.

Lemma no_char_first c s :
  no_char "/" (String c s) -> c ≠ "/"%char.
Proof. rewrite no_char_cons. tauto. Qed.

(** Joining a single clean component appends exactly that component. *)
Lemma join_clean p s :
  clean_component s ->
  p // s = mkPath (p_root p) (p_parts p ++ [s]).
Proof.
  intros Hc. pose proof Hc as (Hne & _ & Hns).
  destruct s as [|c t]; [congruence|].
  unfold PathOps.join. rewrite (parse_relative _ _ (no_char_first _ _ Hns)).
  cbn [p_root p_parts]. rewrite (rel_parts_clean _ Hc). reflexivity.
Qed.

(** Joining a string that does not start with a slash appends its
    components. *)
Lemma join_relative p c t :
  c ≠ "/"%char ->
  p // String c t
  = mkPath (p_root p) (p_parts p ++ PathOps.rel_parts (String c t)).
Proof.
  intros Hc. unfold PathOps.join. rewrite (parse_relative _ _ Hc). reflexivity.
Qed.

Lemma last_In {A} (l : list A) x : last l = Some x -> In x l.
Proof.
  intros Hl. apply last_Some in Hl as [l' ->].
  apply in_or_app. right. left. reflexivity.
Qed.

Lemma name_no_slash s : no_char "/" (PathOps.name (PathOps.parse s)).
Proof.
  unfold PathOps.name. destruct (last _) eqn:E; [|apply no_char_nil].
  eapply parse_parts_no_slash, last_In, E.
Qed.

Lemma substring_no_char c n m s : no_char c s -> no_char c (String.substring n m s).
Proof.
  revert n m. induction s as [|a s IH]; intros n m Hs.
  - destruct n, m; apply no_char_nil.
  - apply no_char_cons in Hs as [Ha Hs]. destruct n as [|n]; simpl.
    + destruct m as [|m]; [apply no_char_nil|].
      apply no_char_cons. split; [exact Ha|apply IH, Hs].
    + apply IH, Hs.
Qed.

Lemma stem_of_no_slash nm : no_char "/" nm -> no_char "/" (PathOps.stem_of nm).
Proof.
  intros Hn. unfold PathOps.stem_of.
  destruct (PyStr.rfind "." nm); [|exact Hn].
  destruct (_ && _); [apply substring_no_char, Hn|exact Hn].
Qed.

Lemma stem_no_slash s : no_char "/" (PathOps.stem (PathOps.parse s)).
Proof. apply stem_of_no_slash, name_no_slash. Qed.




(** ** Lines *)

Lemma split_nonempty sep s : PyStr.split sep s ≠ [].
Proof.
  destruct s as [|a s]; simpl; [discriminate|].
  destruct (Ascii.eqb a sep); [discriminate|].
  destruct (PyStr.split sep s); discriminate.
Qed.

Lemma split_app_sep sep x y :
  PyStr.split sep (x +:+ String sep y) = PyStr.split sep x ++ PyStr.split sep y.
Proof.
  induction x as [|a x IH]; sapp.
  - simpl. rewrite Ascii.eqb_refl. reflexivity.
  - simpl. destruct (Ascii.eqb a sep).
    + rewrite IH. reflexivity.
    + rewrite IH. pose proof (split_nonempty sep x) as Hne.
      destruct (PyStr.split sep x); [contradiction|]. reflexivity.
Qed.

Lemma join_split c s : PyStr.join (String c EmptyString) (PyStr.split c s) = s.
Proof.
  induction s as [|a s IH]; [reflexivity|]. simpl.
  pose proof (split_nonempty c s) as Hne.
  destruct (Ascii.eqb_spec a c) as [->|Hac].
  - destruct (PyStr.split c s) as [|h r]; [contradiction|].
    cbn [PyStr.join] in *. sapp. rewrite IH. reflexivity.
  - destruct (PyStr.split c s) as [|h r]; [contradiction|].
    destruct r as [|h' r]; cbn [PyStr.join] in *; sapp; rewrite IH; reflexivity.
Qed.

Lemma until_delimiter_app ls rest :
  ~ In "---" ls ->
  until_delimiter (ls ++ "---" :: rest) = Some ls.
Proof.
  induction ls as [|l ls IH]; intros Hno; simpl.
  - reflexivity.
  - destruct (String.eqb_spec l "---") as [->|Hl].
    + exfalso. apply Hno. left. reflexivity.
    + rewrite IH; [reflexivity|]. intros Hin. apply Hno. right. exact Hin.
Qed.

(** A document made of a front matter without a line of three hyphens,
    framed by two such lines, gives that front matter back. *)
Lemma front_matter_block_render fm body :
  ~ In "---" (PyStr.split "010" fm) ->
  front_matter_block (render_index fm body) = Some fm.
Proof.
  intros Hno. unfold front_matter_block, render_index.
  change ("---" +:+ String "010" EmptyString +:+ fm +:+ String "010" EmptyString
          +:+ "---" +:+ String "010" EmptyString +:+ body)
    with ("---" +:+ String "010" (fm +:+ String "010" ("---" +:+ String "010" body))).
  rewrite !split_app_sep.
  change (PyStr.split "010" "---") with ["---"]. cbn [app].
  rewrite String.eqb_refl, until_delimiter_app by exact Hno.
  unfold newline. rewrite join_split. reflexivity.
Qed.

(** ** The file system *)

Lemma lookup_insert_dir f p q :
  Fs.lookup f q = Some Dir ->
  Fs.lookup (<[PathOps.str p := Dir]> f) q = Some Dir.
Proof.
  unfold Fs.lookup. destruct (p_parts q); [done|].
  intros Hq. destruct (decide (PathOps.str p = PathOps.str q)) as [->|Hne].
  - apply lookup_insert_eq.
  - rewrite lookup_insert_ne by done. exact Hq.
Qed.

Lemma lookup_insert_file f p q data :
  Fs.lookup f p ≠ Some Dir ->
  Fs.lookup f q = Some Dir ->
  Fs.lookup (<[PathOps.str p := File data]> f) q = Some Dir.
Proof.
  unfold Fs.lookup. destruct (p_parts q) eqn:Eq; [done|].
  intros Hp Hq. destruct (decide (PathOps.str p = PathOps.str q)) as [E|Hne].
  - exfalso. destruct (p_parts p); [congruence|]. rewrite E in Hp. contradiction.
  - rewrite lookup_insert_ne by done. exact Hq.
Qed.

Lemma os_mkdir_keeps_dirs p f f' q :
  Fs.os_mkdir p f = Ok f' ->
  Fs.lookup f q = Some Dir -> Fs.lookup f' q = Some Dir.
Proof.
  unfold Fs.os_mkdir. intros E Hq.
  destruct (Fs.lookup f p); [discriminate|].
  destruct (Fs.lookup f (PathOps.parent p)) as [[|]|]; try discriminate.
  inversion E; subst. apply lookup_insert_dir, Hq.
Qed.

Lemma os_mkdir_creates p f f' :
  Fs.os_mkdir p f = Ok f' -> Fs.lookup f' p = Some Dir.
Proof.
  unfold Fs.os_mkdir. intros E.
  destruct (Fs.lookup f p) eqn:Ep; [discriminate|].
  destruct (Fs.lookup f (PathOps.parent p)) as [[|]|]; try discriminate.
  inversion E; subst. unfold Fs.lookup in *.
  destruct (p_parts p); [discriminate|]. apply lookup_insert_eq.
Qed.

Lemma os_mkdir_exists p f :
  is_Some (Fs.lookup f p) ->
  Fs.os_mkdir p f = Raise (FileExistsError (PathOps.str p)).
Proof. intros [e He]. unfold Fs.os_mkdir. rewrite He. reflexivity. Qed.

Lemma mkdir_exist_ok_keeps_dirs n p f f' q :
  Fs.mkdir_exist_ok n p f = Ok f' ->
  Fs.lookup f q = Some Dir -> Fs.lookup f' q = Some Dir.
Proof.
  revert p f f'. induction n as [|n IH]; intros p f f' E Hq; simpl in E.
  - destruct (Fs.os_mkdir p f) as [f0|e] eqn:E0.
    + inversion E; subst. eapply os_mkdir_keeps_dirs; eauto.
    + destruct e; try discriminate;
        destruct (Fs.is_dir f p); inversion E; subst; assumption.
  - destruct (Fs.os_mkdir p f) as [f0|e] eqn:E0.
    + inversion E; subst. eapply os_mkdir_keeps_dirs; eauto.
    + destruct e;
        try (destruct (Fs.is_dir f p); inversion E; subst; assumption).
      destruct (Fs.mkdir_exist_ok n (PathOps.parent p) f) as [f1|e1] eqn:E1;
        [|discriminate].
      pose proof (IH _ _ _ E1 Hq) as Hq1.
      destruct (Fs.os_mkdir p f1) as [f2|e2] eqn:E2.
      * inversion E; subst. eapply os_mkdir_keeps_dirs; eauto.
      * destruct (Fs.is_dir f1 p); inversion E; subst. assumption.
Qed.

Lemma mkdir_parents_keeps_dirs p f f' q :
  Fs.mkdir_parents p f = Ok f' ->
  Fs.lookup f q = Some Dir -> Fs.lookup f' q = Some Dir.
Proof.
  unfold Fs.mkdir_parents. intros E Hq.
  destruct (Fs.os_mkdir p f) as [f0|e] eqn:E0.
  - inversion E; subst. eapply os_mkdir_keeps_dirs; eauto.
  - destruct e; try discriminate.
    destruct (p_parts p); [discriminate|].
    destruct (Fs.mkdir_exist_ok _ _ f) as [f1|e1] eqn:E1; [|discriminate].
    eapply os_mkdir_keeps_dirs; [exact E|].
    eapply mkdir_exist_ok_keeps_dirs; eauto.
Qed.

Lemma mkdir_parents_creates p f f' :
  Fs.mkdir_parents p f = Ok f' -> Fs.lookup f' p = Some Dir.
Proof.
  unfold Fs.mkdir_parents. intros E.
  destruct (Fs.os_mkdir p f) as [f0|e] eqn:E0.
  - inversion E; subst. eapply os_mkdir_creates; eauto.
  - destruct e; try discriminate.
    destruct (p_parts p); [discriminate|].
    destruct (Fs.mkdir_exist_ok _ _ f) as [f1|e1]; [|discriminate].
    eapply os_mkdir_creates; eauto.
Qed.

(** [mkdir(parents=True)] refuses a path that exists and changes nothing. *)
Lemma mkdir_parents_exists p f :
  is_Some (Fs.lookup f p) ->
  Fs.mkdir_parents p f = Raise (FileExistsError (PathOps.str p)).
Proof.
  intros He. unfold Fs.mkdir_parents. rewrite (os_mkdir_exists _ _ He). reflexivity.
Qed.

Lemma write_keeps_dirs p data f f' q :
  Fs.write p data f = Ok f' ->
  Fs.lookup f q = Some Dir -> Fs.lookup f' q = Some Dir.
Proof.
  unfold Fs.write. intros E Hq.
  destruct (Fs.lookup f p) as [[|d]|] eqn:Ep; try discriminate;
    destruct (Fs.lookup f (PathOps.parent p)) as [[|]|]; try discriminate;
    inversion E; subst; apply lookup_insert_file; congruence.
Qed.

(** ** Frames *)

Lemma preserves_ret {A} (R : World -> World -> Prop) `{!Reflexive R} (a : A) :
  preserves R (mret a : M A).
Proof. intros w. simpl. reflexivity. Qed.

Lemma preserves_lift {A} (R : World -> World -> Prop) `{!Reflexive R}
    (o : Outcome A) : preserves R (lift o).
Proof. intros w. simpl. reflexivity. Qed.

Lemma preserves_raise {A} (R : World -> World -> Prop) `{!Reflexive R} e :
  preserves R (raise e : M A).
Proof. intros w. simpl. reflexivity. Qed.

Lemma preserves_get (R : World -> World -> Prop) `{!Reflexive R} :
  preserves R get.
Proof. intros w. simpl. reflexivity. Qed.

Lemma preserves_bind {A B} (R : World -> World -> Prop) `{!Transitive R}
    (m : M A) (k : A -> M B) :
  preserves R m -> (forall a, preserves R (k a)) -> preserves R (m ≫= k).
Proof.
  intros Hm Hk w. rewrite run_bind. specialize (Hm w).
  destruct (m w) as [w' [a|e]]; simpl in *; [|exact Hm].
  etransitivity; [exact Hm|apply Hk].
Qed.

Lemma preserves_for_each {A} (R : World -> World -> Prop) `{!PreOrder R}
    (body : A -> M unit) l :
  (forall x, preserves R (body x)) -> preserves R (for_each body l).
Proof.
  intros Hb. induction l as [|x l IH]; simpl.
  - apply preserves_ret; apply _.
  - apply preserves_bind; [apply _|apply Hb|intros _; exact IH].
Qed.

Global Instance post_frame_preorder : PreOrder post_frame.
Proof.
  split.
  - intros w. split; [reflexivity|auto].
  - intros w1 w2 w3 [E1 D1] [E2 D2]. split; [congruence|auto].
Qed.

Global Instance resolve_frame_preorder : PreOrder resolve_frame.
Proof.
  split.
  - intros w. repeat split.
  - intros w1 w2 w3 (A1 & B1 & C1) (A2 & B2 & C2). repeat split; congruence.
Qed.

Lemma post_frame_same_fs w w' :
  fs w' = fs w -> url_map w' = url_map w -> post_frame w w'.
Proof. intros Ef Eu. split; [exact Eu|]. intros p. rewrite Ef. auto. Qed.

Lemma post_frame_mkdir p : preserves post_frame (on_fs (Fs.mkdir_parents p)).
Proof.
  intros w. unfold on_fs. destruct (Fs.mkdir_parents p (fs w)) eqn:E; simpl.
  - split; [reflexivity|]. intros q. eapply mkdir_parents_keeps_dirs; eauto.
  - reflexivity.
Qed.

Lemma post_frame_write p data : preserves post_frame (on_fs (Fs.write p data)).
Proof.
  intros w. unfold on_fs. destruct (Fs.write p data (fs w)) eqn:E; simpl.
  - split; [reflexivity|]. intros q. eapply write_keeps_dirs; eauto.
  - reflexivity.
Qed.

Lemma post_frame_modify (f : World -> World) :
  (forall w, fs (f w) = fs w /\ url_map (f w) = url_map w) ->
  preserves post_frame (modify f).
Proof. intros Hf w. simpl. apply post_frame_same_fs; apply Hf. Qed.

(** ** [download_and_save_image] *)

Section ScriptFacts.

Context `{Collaborators}.

Lemma download_run image_src p w :
  download_and_save_image image_src p w
  = if bool_decide (status_code (requests_get image_src) ≠ 200%Z)
    then (logged image_src w,
          Raise (Exception (download_error image_src
                              (status_code (requests_get image_src)))))
    else match Fs.write p (content (requests_get image_src)) (fs w) with
         | Ok f' => (set_fs f' (logged image_src w), Ok tt)
         | Raise e => (logged image_src w, Raise e)
         end.
Proof.
  unfold download_and_save_image. rewrite run_bind. simpl.
  case_bool_decide; reflexivity.
Qed.

Lemma write_not_exception p data f msg :
  Fs.write p data f ≠ Raise (Exception msg).
Proof.
  unfold Fs.write. repeat case_match; discriminate.
Qed.

Lemma write_ok p data f :
  Fs.lookup f p ≠ Some Dir ->
  Fs.lookup f (PathOps.parent p) = Some Dir ->
  Fs.write p data f = Ok (<[PathOps.str p := File data]> f).
Proof.
  intros Hp Hd. unfold Fs.write. rewrite Hd.
  destruct (Fs.lookup f p) as [[|]|]; congruence.
Qed.

(** C8: fetching an image raises the download exception exactly when the
    status of the response is not 200, the success status; the message
    carries the address and the status code; nothing of the file system
    changes then.  One request is made in every case (no retry), and with
    status 200 and a writable destination the bytes of the response are
    stored at the destination path. *)
Theorem download_and_save_image_status image_src p w :
  let r := requests_get image_src in
  let res := download_and_save_image image_src p w in
  ((exists msg, res.2 = Raise (Exception msg)) <-> status_code r ≠ 200%Z)
  /\ (status_code r ≠ 200%Z ->
        res.2 = Raise (Exception ("Can't download image " +:+ image_src
                                  +:+ " ; Status code " +:+ pretty (status_code r)))
        /\ fs res.1 = fs w)
  /\ requests res.1 = requests w ++ [image_src]
  /\ (status_code r = 200%Z ->
      writable (fs w) p ->
        res.2 = Ok tt
        /\ fs res.1 = <[PathOps.str p := File (content r)]> (fs w)).
Proof.
  intros r res. subst res. rewrite download_run. fold r.
  case_bool_decide as Hs.
  - cbn [fst snd]. split; [split; eauto|].
    split; [intros _; split; reflexivity|].
    split; [reflexivity|]. intros; contradiction.
  - assert (Hs' : status_code r = 200%Z)
      by (destruct (decide (status_code r = 200%Z)); tauto).
    split; [split|].
    + intros [msg Hm]. exfalso.
      destruct (Fs.write p (content r) (fs w)) eqn:E; cbn [snd] in Hm;
        [discriminate|].
      inversion Hm; subst. eapply write_not_exception; eauto.
    + intros Hne. contradiction.
    + split; [intros; contradiction|]. split.
      * destruct (Fs.write p (content r) (fs w)); reflexivity.
      * intros _ [Hnd Hpd]. rewrite write_ok by assumption. split; reflexivity.
Qed.

(** ** The candidate address of an image *)

Lemma resize_present (a : gmap string string) s size_name orig_name size orig :
  a !! size_name = Some size -> a !! orig_name = Some orig ->
  resize_if_needed a s size_name orig_name = rewrite_size size orig s.
Proof. intros H1 H2. unfold resize_if_needed. rewrite H1, H2. reflexivity. Qed.

Lemma resize_absent (a : gmap string string) s size_name orig_name :
  a !! size_name = None \/ a !! orig_name = None ->
  resize_if_needed a s size_name orig_name = s.
Proof.
  intros [H1|H1]; unfold resize_if_needed; rewrite H1; [reflexivity|].
  destruct (a !! size_name); reflexivity.
Qed.

Lemma tag_of_run i w t :
  Soup.tag_at (soup w) i = Some t -> Soup.tag_of i w = (w, Ok t).
Proof. intros E. unfold Soup.tag_of. rewrite E. reflexivity. Qed.

Lemma find_parent_run i w t :
  Soup.tag_at (soup w) i = Some t -> Soup.find_parent i w = (w, Ok (parent t)).
Proof.
  intros E. unfold Soup.find_parent. rewrite run_bind, (tag_of_run _ _ _ E).
  reflexivity.
Qed.

(** An image without [src] is passed over: nothing is read, fetched or
    changed. *)
Lemma replace_image_no_src html folder img w t :
  Soup.tag_at (soup w) img = Some t ->
  attrs t !! "src" = None ->
  replace_image html folder img w = (w, Ok tt).
Proof.
  intros Ht Hs. unfold replace_image.
  rewrite run_bind, (tag_of_run _ _ _ Ht), Hs. reflexivity.
Qed.

(** C4: the candidate address of an image with a [src] is that [src] after
    the height rewriting and then the width rewriting; a pair rewrites
    [/s<rendered>/] to [/s<original>/] when both of its attributes are
    present and leaves the address alone when either is missing.  An image
    without [src] is skipped: the loop body returns at once and leaves the
    state as it was.  The rewriting replaces the first [/s<rendered>/] of
    the address and continues behind it; an address without that segment
    stays as it is. *)
Theorem get_src_resize_if_needed_cases (a : gmap string string) :
  (forall src, a !! "src" = Some src ->
     (forall h oh wd owd,
        a !! "height" = Some h -> a !! "data-original-height" = Some oh ->
        a !! "width" = Some wd -> a !! "data-original-width" = Some owd ->
        get_src_resize_if_needed a
        = Ok (rewrite_size wd owd (rewrite_size h oh src)))
     /\ (forall h oh,
        a !! "height" = Some h -> a !! "data-original-height" = Some oh ->
        a !! "width" = None \/ a !! "data-original-width" = None ->
        get_src_resize_if_needed a = Ok (rewrite_size h oh src))
     /\ (forall wd owd,
        a !! "height" = None \/ a !! "data-original-height" = None ->
        a !! "width" = Some wd -> a !! "data-original-width" = Some owd ->
        get_src_resize_if_needed a = Ok (rewrite_size wd owd src))
     /\ (a !! "height" = None \/ a !! "data-original-height" = None ->
        a !! "width" = None \/ a !! "data-original-width" = None ->
        get_src_resize_if_needed a = Ok src))
  /\ (forall html folder img w t,
        Soup.tag_at (soup w) img = Some t -> attrs t = a ->
        a !! "src" = None ->
        replace_image html folder img w = (w, Ok tt))
  /\ (forall rendered original pre post,
        let old := "/s" +:+ rendered +:+ "/" in
        no_occurrence_before old (String.length pre) (pre +:+ old +:+ post) ->
        rewrite_size rendered original (pre +:+ old +:+ post)
        = pre +:+ ("/s" +:+ original +:+ "/")
          +:+ rewrite_size rendered original post)
  /\ (forall rendered original s,
        no_occurrence_before ("/s" +:+ rendered +:+ "/") (String.length s) s ->
        rewrite_size rendered original s = s).
Proof.
  split; [|split; [|split]]; cycle 2.
  { intros rendered original pre post old Hno. unfold rewrite_size.
    apply replace_first_occurrence; [discriminate|exact Hno]. }
  { intros rendered original s Hno. unfold rewrite_size.
    apply replace_no_occurrence; [discriminate|exact Hno]. }
  - intros src Hsrc. unfold get_src_resize_if_needed, getitem. rewrite Hsrc.
    repeat split.
    + intros h oh wd owd Hh Hoh Hw How.
      rewrite (resize_present _ _ _ _ _ _ Hh Hoh), (resize_present _ _ _ _ _ _ Hw How).
      reflexivity.
    + intros h oh Hh Hoh Hw.
      rewrite (resize_present _ _ _ _ _ _ Hh Hoh), (resize_absent _ _ _ _ Hw).
      reflexivity.
    + intros wd owd Hh Hw How.
      rewrite (resize_absent _ _ _ _ Hh), (resize_present _ _ _ _ _ _ Hw How).
      reflexivity.
    + intros Hh Hw.
      rewrite (resize_absent _ _ _ _ Hh), (resize_absent _ _ _ _ Hw).
      reflexivity.
  - intros html folder img w t Ht <- Hs. eapply replace_image_no_src; eauto.
Qed.

(** ** The choice between the image and the link around it *)

Lemma choose_target_no_href img href pid pt w :
  Soup.tag_at (soup w) pid = Some pt ->
  name pt = "a" -> attrs pt !! "href" = None ->
  choose_target img href (Some pid) w = (w, Raise (KeyError "href")).
Proof.
  intros Hp Hn Hh. unfold choose_target.
  rewrite run_bind, (tag_of_run _ _ _ Hp), Hn. simpl.
  rewrite run_bind. unfold getitem. rewrite Hh. reflexivity.
Qed.

Lemma choose_target_link img href pid pt phref w :
  Soup.tag_at (soup w) pid = Some pt ->
  name pt = "a" -> attrs pt !! "href" = Some phref ->
  choose_target img href (Some pid) w
  = (w, Ok (if has_identical_extension href phref
            then (pid, phref) else (img, href))).
Proof.
  intros Hp Hn Hh. unfold choose_target.
  rewrite run_bind, (tag_of_run _ _ _ Hp), Hn. simpl.
  rewrite run_bind. unfold getitem. rewrite Hh. simpl.
  destruct (has_identical_extension href phref); reflexivity.
Qed.

Lemma choose_target_other img href pid pt w :
  Soup.tag_at (soup w) pid = Some pt ->
  name pt ≠ "a" ->
  choose_target img href (Some pid) w = (w, Ok (img, href)).
Proof.
  intros Hp Hn. unfold choose_target.
  rewrite run_bind, (tag_of_run _ _ _ Hp).
  destruct (String.eqb_spec (name pt) "a"); [contradiction|reflexivity].
Qed.

(** The loop body on an image with a [src], up to the choice. *)
Lemma replace_image_run html folder img w t src :
  Soup.tag_at (soup w) img = Some t ->
  attrs t !! "src" = Some src ->
  exists cand,
    get_src_resize_if_needed (attrs t) = Ok cand
    /\ replace_image html folder img w
       = match choose_target img cand (parent t) w with
         | (w1, Ok (target_tag, url)) =>
             (let href := re_sub_size_h url in
              let nm := PathOps.name (PathOps.parse (urlparse_path href)) in
              download_and_save_image href (folder // nm);;
              new_img ← Soup.new_tag "img" {[ "src" := nm ]};
              Soup.replace_with target_tag new_img) w1
         | (w1, Raise e) => (w1, Raise e)
         end.
Proof.
  intros Ht Hs. unfold replace_image.
  rewrite run_bind, (tag_of_run _ _ _ Ht), Hs.
  unfold get_src_resize_if_needed at 1 2, getitem. rewrite Hs.
  eexists. split; [reflexivity|].
  rewrite run_bind, run_lift, run_bind, (find_parent_run _ _ _ Ht), run_bind.
  destruct (choose_target _ _ _ w) as [w1 [[target url]|e]]; reflexivity.
Qed.

(** C10: an image with a [src] whose immediate parent is an [a] element
    without [href] makes the loop body raise [KeyError] on the lookup of
    [href]; nothing has been fetched or written and the tree is as it was;
    the loop over the images stops there with that error. *)
Theorem enclosing_link_needs_href html folder done img rest w0 w t src pid pt :
  for_each (replace_image html folder) done w0 = (w, Ok tt) ->
  Soup.tag_at (soup w) img = Some t ->
  attrs t !! "src" = Some src ->
  parent t = Some pid ->
  Soup.tag_at (soup w) pid = Some pt ->
  name pt = "a" ->
  attrs pt !! "href" = None ->
  replace_image html folder img w = (w, Raise (KeyError "href"))
  /\ for_each (replace_image html folder) (done ++ img :: rest) w0
     = (w, Raise (KeyError "href")).
Proof.
  intros Hdone Ht Hs Hp Hpt Hn Hh.
  assert (E : replace_image html folder img w = (w, Raise (KeyError "href"))).
  { destruct (replace_image_run html folder img w t src Ht Hs) as (cand & _ & ->).
    rewrite Hp, (choose_target_no_href _ _ _ _ _ Hpt Hn Hh). reflexivity. }
  split; [exact E|].
  eapply for_each_raise; eauto.
Qed.

(** ** Fetching, then replacing *)

Lemma fresh_unused (d : gmap nat PageElement) : d !! fresh (dom d) = None.
Proof. apply not_elem_of_dom, is_fresh. Qed.

Lemma replace_with_frame old new w :
  fs (Soup.replace_with old new w).1 = fs w
  /\ requests (Soup.replace_with old new w).1 = requests w
  /\ url_map (Soup.replace_with old new w).1 = url_map w.
Proof.
  unfold Soup.replace_with. repeat case_match; repeat split; reflexivity.
Qed.

Lemma replace_with_detached old new w e :
  soup w !! old = Some e ->
  Soup.node_parent e = None ->
  exists msg, Soup.replace_with old new w = (w, Raise (ValueError msg)).
Proof.
  intros He Hp. unfold Soup.replace_with. rewrite He, Hp. eauto.
Qed.

(** The part of the loop body after the choice: one request, one file,
    one new element, and then the replacement. *)
Lemma fetch_then_replace folder target url w :
  let href := re_sub_size_h url in
  let nm := PathOps.name (PathOps.parse (urlparse_path href)) in
  let new_img := fresh (dom (soup w)) in
  status_code (requests_get href) = 200%Z ->
  writable (fs w) (folder // nm) ->
  (download_and_save_image href (folder // nm);;
   new_img ← Soup.new_tag "img" {[ "src" := nm ]};
   Soup.replace_with target new_img) w
  = Soup.replace_with target new_img
      (set_soup (<[new_img := ETag (mkTag "img" {[ "src" := nm ]} None [])]> (soup w))
         (set_fs (<[PathOps.str (folder // nm) := File (content (requests_get href))]> (fs w))
            (logged href w))).
Proof.
  intros href nm new_img Hst [Hnd Hpd].
  rewrite run_bind, download_run.
  rewrite bool_decide_false by (intros Hne; apply Hne; exact Hst).
  rewrite write_ok by assumption.
  rewrite run_bind. reflexivity.
Qed.

(** What is fetched and where it is stored does not depend on how the
    replacement ends. *)
Lemma fetch_then_replace_effects folder target url w :
  let href := re_sub_size_h url in
  let nm := PathOps.name (PathOps.parse (urlparse_path href)) in
  let res := (download_and_save_image href (folder // nm);;
              new_img ← Soup.new_tag "img" {[ "src" := nm ]};
              Soup.replace_with target new_img) w in
  requests res.1 = requests w ++ [href]
  /\ (status_code (requests_get href) = 200%Z ->
      writable (fs w) (folder // nm) ->
      fs res.1
      = <[PathOps.str (folder // nm) := File (content (requests_get href))]> (fs w)).
Proof.
  intros href nm res. subst res nm href. split.
  - rewrite run_bind, download_run.
    case_bool_decide; [reflexivity|].
    destruct (Fs.write _ _ _); [|reflexivity].
    rewrite run_bind. cbn [Soup.new_tag].
    match goal with |- requests (Soup.replace_with ?o ?n ?w').1 = _ =>
      destruct (replace_with_frame o n w') as (_ & -> & _) end.
    reflexivity.
  - intros Hst Hw.
    rewrite (fetch_then_replace folder target url w Hst Hw).
    match goal with |- fs (Soup.replace_with ?o ?n ?w').1 = _ =>
      destruct (replace_with_frame o n w') as (-> & _ & _) end.
    reflexivity.
Qed.

Lemma tag_at_insert_ne (d : gmap nat PageElement) i j x :
  i ≠ j -> Soup.tag_at (<[i := x]> d) j = Soup.tag_at d j.
Proof. intros Hne. unfold Soup.tag_at. rewrite lookup_insert_ne by done. reflexivity. Qed.

(** A node with a parent in the tree is replaced by the new element. *)
Lemma replace_with_attached old nm w e pid pt :
  let d := soup w in
  let new := fresh (dom d) in
  let w1 := set_soup (<[new := ETag (mkTag "img" {[ "src" := nm ]} None [])]> d) w in
  d !! old = Some e ->
  Soup.node_parent e = Some pid ->
  Soup.tag_at d pid = Some pt ->
  old ≠ pid ->
  (Soup.replace_with old new w1).2 = Ok tt
  /\ replaced_by_local_image d (soup (Soup.replace_with old new w1).1) old nm.
Proof.
  intros d new w1 He Hp Hpt Hne.
  assert (Hnew : d !! new = None) by apply fresh_unused.
  assert (Hno : new ≠ old) by (intros ->; congruence).
  assert (Hnp : new ≠ pid).
  { intros ->. unfold Soup.tag_at in Hpt. rewrite Hnew in Hpt. discriminate. }
  assert (Hpt' : d !! pid = Some (ETag pt)).
  { unfold Soup.tag_at in Hpt. destruct (d !! pid) as [[|]|]; congruence. }
  unfold Soup.replace_with. subst w1. cbn [soup set_soup].
  rewrite lookup_insert_ne, He, Hp by done.
  rewrite tag_at_insert_ne, Hpt by done.
  cbn [fst snd soup set_soup]. split; [reflexivity|].
  exists new, pid, e, pt. repeat split; try assumption.
  - rewrite lookup_alter_eq, lookup_insert_ne, lookup_insert_ne, lookup_insert_eq by done.
    reflexivity.
  - rewrite lookup_alter_ne, lookup_insert_eq by done. reflexivity.
  - unfold Soup.tag_at.
    rewrite lookup_alter_ne, lookup_insert_ne, lookup_insert_eq by done. reflexivity.
  - intros j H1 H2 H3.
    rewrite lookup_alter_ne, !lookup_insert_ne by done. reflexivity.
Qed.

(** The loop body on an image whose chosen node is part of the tree and
    whose address is served and can be stored. *)
Lemma replace_image_success html folder img w t src cand target url e tp tpt :
  Soup.tag_at (soup w) img = Some t ->
  attrs t !! "src" = Some src ->
  get_src_resize_if_needed (attrs t) = Ok cand ->
  choose_target img cand (parent t) w = (w, Ok (target, url)) ->
  soup w !! target = Some e ->
  Soup.node_parent e = Some tp ->
  Soup.tag_at (soup w) tp = Some tpt ->
  target ≠ tp ->
  let href := re_sub_size_h url in
  let nm := PathOps.name (PathOps.parse (urlparse_path href)) in
  status_code (requests_get href) = 200%Z ->
  writable (fs w) (folder // nm) ->
  let res := replace_image html folder img w in
  res.2 = Ok tt
  /\ requests res.1 = requests w ++ [href]
  /\ fs res.1
     = <[PathOps.str (folder // nm) := File (content (requests_get href))]> (fs w)
  /\ replaced_by_local_image (soup w) (soup res.1) target nm.
Proof.
  intros Ht Hs Hc Hch He Hp Htp Hne href nm Hst Hw res. subst res.
  destruct (replace_image_run html folder img w t src Ht Hs) as (cand' & Hc' & ->).
  assert (cand' = cand) as -> by congruence.
  rewrite Hch. cbv zeta.
  pose proof (fetch_then_replace_effects folder target url w) as [Hreq Hfs].
  cbv zeta in Hreq, Hfs. fold href nm in Hreq, Hfs.
  specialize (Hfs Hst Hw).
  split; [|split; [exact Hreq|split; [exact Hfs|]]].
  - rewrite (fetch_then_replace folder target url w Hst Hw).
    exact (proj1 (replace_with_attached target nm
             (set_fs (<[PathOps.str (folder // nm) := File (content (requests_get href))]> (fs w))
                (logged href w)) e tp tpt He Hp Htp Hne)).
  - rewrite (fetch_then_replace folder target url w Hst Hw).
    exact (proj2 (replace_with_attached target nm
             (set_fs (<[PathOps.str (folder // nm) := File (content (requests_get href))]> (fs w))
                (logged href w)) e tp tpt He Hp Htp Hne)).
Qed.

Lemma tag_at_lookup (d : gmap nat PageElement) i t :
  Soup.tag_at d i = Some t -> d !! i = Some (ETag t).
Proof. unfold Soup.tag_at. destruct (d !! i) as [[|]|]; congruence. Qed.

(** C5, as amended: take an image with a [src] whose immediate parent is
    an element of the tree.  When that parent is an [a] element that carries
    an [href] with the extension of the candidate address, and the [a]
    element is itself still part of a tree, the (normalised) target of the
    link is what is fetched and the [a] element is what the new local image
    element replaces.  When the parent is not an [a] element, or is one
    whose [href] has another extension, the (normalised) candidate address
    of the image is fetched and the image element is replaced.  In both
    cases the address is assumed to be served with status 200 and the
    destination to be writable. *)
Theorem replace_image_target html folder img w t src cand pid pt :
  Soup.tag_at (soup w) img = Some t ->
  attrs t !! "src" = Some src ->
  get_src_resize_if_needed (attrs t) = Ok cand ->
  parent t = Some pid ->
  Soup.tag_at (soup w) pid = Some pt ->
  img ≠ pid ->
  let res := replace_image html folder img w in
  (forall phref g gt,
     name pt = "a" -> attrs pt !! "href" = Some phref ->
     has_identical_extension cand phref = true ->
     parent pt = Some g -> Soup.tag_at (soup w) g = Some gt -> pid ≠ g ->
     let href := re_sub_size_h phref in
     let nm := PathOps.name (PathOps.parse (urlparse_path href)) in
     status_code (requests_get href) = 200%Z ->
     writable (fs w) (folder // nm) ->
     res.2 = Ok tt
     /\ requests res.1 = requests w ++ [href]
     /\ fs res.1
        = <[PathOps.str (folder // nm) := File (content (requests_get href))]> (fs w)
     /\ replaced_by_local_image (soup w) (soup res.1) pid nm)
  /\ (name pt ≠ "a"
      \/ (exists phref, attrs pt !! "href" = Some phref
                        /\ has_identical_extension cand phref = false) ->
     let href := re_sub_size_h cand in
     let nm := PathOps.name (PathOps.parse (urlparse_path href)) in
     status_code (requests_get href) = 200%Z ->
     writable (fs w) (folder // nm) ->
     res.2 = Ok tt
     /\ requests res.1 = requests w ++ [href]
     /\ fs res.1
        = <[PathOps.str (folder // nm) := File (content (requests_get href))]> (fs w)
     /\ replaced_by_local_image (soup w) (soup res.1) img nm).
Proof.
  intros Ht Hs Hc Hp Hpt Hne res. split.
  - intros phref g gt Hn Hh Hext Hg Hgt Hpg href nm Hst Hw.
    eapply (replace_image_success html folder img w t src cand pid phref
              (ETag pt) g gt); eauto using tag_at_lookup.
    rewrite Hp, (choose_target_link _ _ _ _ _ _ Hpt Hn Hh), Hext. reflexivity.
  - intros Hcase href nm Hst Hw.
    eapply (replace_image_success html folder img w t src cand img cand
              (ETag t) pid pt); eauto using tag_at_lookup.
    rewrite Hp. destruct Hcase as [Hn|(phref & Hh & Hext)].
    + eapply choose_target_other; eassumption.
    + destruct (String.eqb_spec (name pt) "a") as [Hn|Hn].
      * rewrite (choose_target_link _ _ _ _ _ _ Hpt Hn Hh), Hext. reflexivity.
      * eapply choose_target_other; eassumption.
Qed.

(** C6: whatever node and address the choice gives, the address that is
    requested is that address after the substitution of [/s<N>-h/] by
    [/s<N>/], and the file is stored under the final segment of the path of
    the substituted address.  The substitution rewrites the first
    [/s<N>-h/] and continues behind it, and it leaves an address without
    such a segment as it is. *)
Theorem filename_of_normalised_address html folder img w t src cand target url :
  Soup.tag_at (soup w) img = Some t ->
  attrs t !! "src" = Some src ->
  get_src_resize_if_needed (attrs t) = Ok cand ->
  choose_target img cand (parent t) w = (w, Ok (target, url)) ->
  let href := re_sub_size_h url in
  let nm := PathOps.name (PathOps.parse (urlparse_path href)) in
  let res := replace_image html folder img w in
  requests res.1 = requests w ++ [href]
  /\ (status_code (requests_get href) = 200%Z ->
      writable (fs w) (folder // nm) ->
      fs res.1
      = <[PathOps.str (folder // nm) := File (content (requests_get href))]> (fs w))
  /\ (forall pre d post,
        all_digits d -> d ≠ EmptyString ->
        no_size_h_before (String.length pre) (pre +:+ "/s" +:+ d +:+ "-h/" +:+ post) ->
        re_sub_size_h (pre +:+ "/s" +:+ d +:+ "-h/" +:+ post)
        = pre +:+ "/s" +:+ d +:+ "/" +:+ re_sub_size_h post)
  /\ (forall s, no_size_h_before (String.length s) s -> re_sub_size_h s = s).
Proof.
  intros Ht Hs Hc Hch href nm res. subst res.
  destruct (replace_image_run html folder img w t src Ht Hs) as (cand' & Hc' & ->).
  assert (cand' = cand) as -> by congruence.
  rewrite Hch. cbv zeta.
  pose proof (fetch_then_replace_effects folder target url w) as [Hreq Hfs].
  cbv zeta in Hreq, Hfs.
  split; [exact Hreq|]. split; [exact Hfs|].
  split; [apply re_sub_first_match | apply re_sub_no_match].
Qed.

(** C1, what the script does: a destination that already holds a file is
    opened for writing again; the call ends normally and the file holds the
    bytes of the later response.  The guard [check_if_file_exists] would
    have stopped the run on the same destination, but
    [download_and_save_image] does not call it. *)
Theorem existing_image_overwritten image_src p w old :
  status_code (requests_get image_src) = 200%Z ->
  Fs.lookup (fs w) p = Some (File old) ->
  Fs.lookup (fs w) (PathOps.parent p) = Some Dir ->
  let res := download_and_save_image image_src p w in
  res.2 = Ok tt
  /\ fs res.1 !! PathOps.str p = Some (File (content (requests_get image_src)))
  /\ check_if_file_exists p image_src w = (w, Raise (SystemExit 1)).
Proof.
  intros Hst Hold Hpar res. subst res. rewrite download_run.
  rewrite bool_decide_false by (intros Hne; apply Hne; exact Hst).
  rewrite write_ok; [|congruence|assumption].
  cbn [fst snd fs set_fs]. split; [reflexivity|].
  split; [apply lookup_insert_eq|].
  unfold check_if_file_exists. rewrite Hold. reflexivity.
Qed.

(** ** What the two halves of [process_post] leave alone *)

Lemma preserves_tag_of (R : World -> World -> Prop) `{!Reflexive R} i :
  preserves R (Soup.tag_of i).
Proof. intros w. unfold Soup.tag_of. destruct (Soup.tag_at _ _); simpl; reflexivity. Qed.

Lemma preserves_find_all (R : World -> World -> Prop) `{!Reflexive R} root n :
  preserves R (Soup.find_all root n).
Proof. intros w. simpl. reflexivity. Qed.

Lemma post_frame_download image_src p :
  preserves post_frame (download_and_save_image image_src p).
Proof.
  intros w. rewrite download_run. case_bool_decide.
  - apply post_frame_same_fs; reflexivity.
  - destruct (Fs.write _ _ _) eqn:E; simpl.
    + split; [reflexivity|]. intros q. cbn. eapply write_keeps_dirs; eauto.
    + apply post_frame_same_fs; reflexivity.
Qed.

Lemma post_frame_new_tag n a : preserves post_frame (Soup.new_tag n a).
Proof. intros w. apply post_frame_same_fs; reflexivity. Qed.

Lemma post_frame_replace_with old new :
  preserves post_frame (Soup.replace_with old new).
Proof.
  intros w. destruct (replace_with_frame old new w) as (Ef & _ & Eu).
  apply post_frame_same_fs; assumption.
Qed.

Create HintDb frame.

(** Break a frame goal down along the binds of the computation. *)
Ltac frame_step :=
  first
    [ solve [auto 1 with frame nocore]
    | apply preserves_ret; apply _
    | apply preserves_lift; apply _
    | apply preserves_raise; apply _
    | apply preserves_get; apply _
    | apply preserves_tag_of; apply _
    | apply preserves_find_all; apply _
    | apply post_frame_download
    | apply post_frame_new_tag
    | apply post_frame_replace_with
    | apply post_frame_mkdir
    | apply post_frame_write
    | apply post_frame_modify; intros ?; split; reflexivity
    | apply preserves_bind; [apply _| |intros ?] ].

Lemma post_frame_choose_target img href up :
  preserves post_frame (choose_target img href up).
Proof.
  unfold choose_target. destruct up; repeat frame_step.
  destruct (String.eqb _ _); repeat frame_step.
  destruct (has_identical_extension _ _); repeat frame_step.
Qed.

#[local] Hint Resolve post_frame_choose_target : frame.

Lemma post_frame_replace_image html folder img :
  preserves post_frame (replace_image html folder img).
Proof.
  unfold replace_image, Soup.find_parent. repeat frame_step.
  destruct (attrs _ !! "src"); repeat frame_step.
  match goal with x : (nat * string)%type |- _ => destruct x end.
  repeat frame_step.
Qed.

Lemma post_frame_replace_images html folder :
  preserves post_frame (replace_images_with_downloaded html folder).
Proof.
  unfold replace_images_with_downloaded. repeat frame_step.
  apply preserves_for_each; [apply _|]. intros x. apply post_frame_replace_image.
Qed.

#[local] Hint Resolve post_frame_replace_images : frame.

(** The conversion of a post never touches [url_map] and never removes a
    directory. *)
Lemma post_frame_convert post options title r date :
  preserves post_frame (convert_post post options title r date).
Proof.
  unfold convert_post. repeat frame_step.
  match goal with x : (gmap nat PageElement * nat)%type |- _ => destruct x end.
  repeat frame_step.
Qed.

(** The resolution of a post touches nothing but [url_map]. *)
Lemma resolve_frame_resolve post options :
  preserves resolve_frame (resolve_post post options).
Proof.
  intros w. unfold resolve_post.
  rewrite run_bind, run_lift. destruct (find_text post "title"); [|reflexivity].
  rewrite run_bind, run_lift. destruct (find_text post "published"); [|reflexivity].
  rewrite run_bind, run_lift. destruct (dateutil_parse _); [|reflexivity].
  rewrite run_bind.
  destruct (negb (truthy (find_published_url post))).
  - unfold resolve_draft. rewrite run_bind, run_lift.
    destruct (slugify _); reflexivity.
  - unfold resolve_published. rewrite run_bind. simpl. repeat split.
Qed.

Lemma process_post_run post options w w1 title r date :
  resolve_post post options w = (w1, Ok (title, r, date)) ->
  process_post post options w = convert_post post options title r date w1.
Proof. intros E. unfold process_post. rewrite (run_bind_ok _ _ _ _ _ E). reflexivity. Qed.

(** A post that has been processed to the end has its folder. *)
Lemma process_post_creates_folder post options w w0 w1 title r date :
  resolve_post post options w = (w0, Ok (title, r, date)) ->
  process_post post options w = (w1, Ok tt) ->
  Fs.lookup (fs w1) (post_folder r) = Some Dir.
Proof.
  intros Hr Hp. rewrite (process_post_run _ _ _ _ _ _ _ Hr) in Hp.
  unfold convert_post in Hp. rewrite run_bind in Hp. unfold on_fs at 1 in Hp.
  destruct (Fs.mkdir_parents (post_folder r) (fs w0)) as [f'|e] eqn:Em;
    [|discriminate].
  pose proof (mkdir_parents_creates _ _ _ Em) as Hdir.
  cbv beta iota in Hp.
  match type of Hp with ?m ?w' = _ =>
    assert (Hk : preserves post_frame m);
    [| pose proof (Hk w') as [_ Hd]; rewrite Hp in Hd; apply Hd; exact Hdir ]
  end.
  repeat frame_step.
  match goal with x : (gmap nat PageElement * nat)%type |- _ => destruct x end.
  repeat frame_step.
Qed.

(** C7: when the folder computed for a post exists already, [process_post]
    raises [FileExistsError] on creating it: no request has been made and
    the file system is as it was before the post.  In particular, when a
    post has been processed to the end and a later post of the run resolves
    to the same folder, the loop over the posts stops at the later post with
    that error and the file system is as the earlier post left it. *)
Theorem existing_folder_aborts options :
  (forall post w w1 title r date,
     resolve_post post options w = (w1, Ok (title, r, date)) ->
     is_Some (Fs.lookup (fs w) (post_folder r)) ->
     process_post post options w
     = (w1, Raise (FileExistsError (PathOps.str (post_folder r))))
     /\ fs w1 = fs w /\ requests w1 = requests w)
  /\ (forall p1 p2 w w0 w1 w2 t1 r1 d1 t2 r2 d2,
     resolve_post p1 options w = (w0, Ok (t1, r1, d1)) ->
     process_post p1 options w = (w1, Ok tt) ->
     resolve_post p2 options w1 = (w2, Ok (t2, r2, d2)) ->
     post_folder r2 = post_folder r1 ->
     for_each (fun post => process_post post options) [p1; p2] w
     = (w2, Raise (FileExistsError (PathOps.str (post_folder r1))))
     /\ fs w2 = fs w1 /\ requests w2 = requests w1).
Proof.
  assert (Hone : forall post w w1 title r date,
     resolve_post post options w = (w1, Ok (title, r, date)) ->
     is_Some (Fs.lookup (fs w) (post_folder r)) ->
     process_post post options w
     = (w1, Raise (FileExistsError (PathOps.str (post_folder r))))
     /\ fs w1 = fs w /\ requests w1 = requests w).
  { intros post w w1 title r date Hr Hex.
    pose proof (resolve_frame_resolve post options w) as (Ef & Er & _).
    rewrite Hr in Ef, Er. cbn [fst] in Ef, Er.
    split; [|split; assumption].
    rewrite (process_post_run _ _ _ _ _ _ _ Hr).
    unfold convert_post. rewrite run_bind. unfold on_fs at 1.
    rewrite Ef, (mkdir_parents_exists _ _ Hex). reflexivity. }
  split; [exact Hone|].
  intros p1 p2 w w0 w1 w2 t1 r1 d1 t2 r2 d2 Hr1 Hp1 Hr2 Hsame.
  pose proof (process_post_creates_folder _ _ _ _ _ _ _ _ Hr1 Hp1) as Hdir.
  rewrite <- Hsame in *.
  destruct (Hone p2 w1 w2 t2 r2 d2 Hr2 (ex_intro _ _ Hdir)) as (Hp2 & Ef & Er).
  split; [|split; assumption].
  rewrite for_each_cons, Hp1, for_each_cons, Hp2. reflexivity.
Qed.

(** ** Drafts and published posts *)

Lemma format_date_head d :
  exists c t, format_date d = String c t /\ PyStr.is_digit c = true.
Proof.
  unfold format_date.
  destruct (pretty_N_digits (year d)) as [Hd Hne].
  destruct (zfill_digits 4 _ Hd Hne) as [Hz Hzne].
  destruct (PyStr.zfill 4 (pretty (year d))) as [|c t]; [congruence|].
  sapp. apply all_digits_cons in Hz as [Hc _]. eauto.
Qed.

Lemma zfill_pretty_no_slash w (n : N) : no_char "/" (PyStr.zfill w (pretty n)).
Proof.
  destruct (pretty_N_digits n) as [Hd Hne].
  apply all_digits_no_slash, (zfill_digits _ _ Hd Hne).
Qed.

Lemma dash_no_slash : no_char "/" "-".
Proof. repeat constructor. discriminate. Qed.

Lemma format_date_no_slash d : no_char "/" (format_date d).
Proof.
  unfold format_date.
  apply no_char_app; split; [apply zfill_pretty_no_slash|].
  apply no_char_app; split; [apply dash_no_slash|].
  apply no_char_app; split; [apply zfill_pretty_no_slash|].
  apply no_char_app; split; [apply dash_no_slash|].
  apply zfill_pretty_no_slash.
Qed.

Lemma date_slug_clean d s :
  no_char "/" s -> clean_component (format_date d +:+ "-" +:+ s).
Proof.
  intros Hs. destruct (format_date_head d) as (c & t & E & Hc).
  pose proof (format_date_no_slash d) as Hn.
  split; [|split].
  - rewrite E. sapp. discriminate.
  - rewrite E. sapp. intros Heq. inversion Heq; subst. discriminate Hc.
  - apply no_char_app. split; [exact Hn|].
    apply no_char_app. split; [apply dash_no_slash|exact Hs].
Qed.

Lemma year_clean d : clean_component (PyStr.zfill 4 (pretty (year d))).
Proof.
  destruct (pretty_N_digits (year d)) as [Hd Hne].
  destruct (zfill_digits 4 _ Hd Hne) as [Hz Hzne].
  split; [exact Hzne|split; [|apply all_digits_no_slash, Hz]].
  intros E. rewrite E in Hz. apply all_digits_cons in Hz as [Hc _]. discriminate Hc.
Qed.

Lemma literal_clean_post : clean_component "post".
Proof. repeat split; try discriminate. repeat constructor; discriminate. Qed.

Lemma literal_clean_draft_posts : clean_component "draft_posts".
Proof. repeat split; try discriminate. repeat constructor; discriminate. Qed.

Lemma resolve_post_draft post options w title ps d s :
  find_text post "title" = Ok title ->
  find_text post "published" = Ok ps ->
  dateutil_parse ps = Ok d ->
  slugify title = Ok s ->
  is_draft post = true ->
  resolve_post post options w
  = (w, Ok (title,
            mkResolved s
              (PathOps.parse (output_folder options) // "draft_posts"
                 // (format_date d +:+ "-" +:+ s)) [],
            format_date d)).
Proof.
  intros Ht Hp Hd Hs Hdraft. unfold resolve_post.
  rewrite run_bind, run_lift, Ht. cbv beta iota.
  rewrite run_bind, run_lift, Hp. cbv beta iota.
  rewrite run_bind, run_lift, Hd. cbv beta iota.
  unfold is_draft in Hdraft. rewrite run_bind, Hdraft.
  unfold resolve_draft. rewrite run_bind, run_lift, Hs. reflexivity.
Qed.

Lemma resolve_post_published post options w title ps d url :
  find_text post "title" = Ok title ->
  find_text post "published" = Ok ps ->
  dateutil_parse ps = Ok d ->
  find_published_url post = Some url ->
  url ≠ EmptyString ->
  let p := PathOps.parse (urlparse_path url) in
  resolve_post post options w
  = (set_url_map
       (url_map w ++ [(url, new_root options +:+ PathOps.str (PathOps.parent p)
                            +:+ "/" +:+ PathOps.stem p)]) w,
     Ok (title,
         mkResolved (PathOps.stem p)
           (PathOps.parse (output_folder options) // "post"
              // PyStr.zfill 4 (pretty (year d))
              // (format_date d +:+ "-" +:+ PathOps.stem p))
           [PathOps.str p],
         format_date d)).
Proof.
  intros Ht Hp Hd Hu Hne p. unfold resolve_post.
  rewrite run_bind, run_lift, Ht. cbv beta iota.
  rewrite run_bind, run_lift, Hp. cbv beta iota.
  rewrite run_bind, run_lift, Hd. cbv beta iota.
  rewrite Hu. destruct url; [congruence|]. reflexivity.
Qed.

(** After [process_post], [url_map] is what the resolution made of it. *)
Lemma process_post_url_map post options w :
  url_map (process_post post options w).1
  = url_map (resolve_post post options w).1.
Proof.
  unfold process_post. rewrite run_bind.
  destruct (resolve_post post options w) as [w1 [[[title r] date]|e]]; [|reflexivity].
  apply (post_frame_convert post options title r date w1).
Qed.

Lemma has_alternate_filter post :
  has_alternate_link post = false
  <-> List.filter is_alternate (findall post "link") = [].
Proof.
  unfold has_alternate_link. induction (findall post "link") as [|e l IH]; simpl.
  - tauto.
  - destruct (is_alternate e); simpl; [split; discriminate|exact IH].
Qed.

(** C2, as amended: a post is taken for a draft exactly when it has no
    link with [rel='alternate'] or when the first such link has no [href]
    or an empty one.  The folder of a draft is the output root, then
    [draft_posts], then the components of [<date>-<slug>], where the slug is
    the slugified title; the resolution leaves the state untouched, the
    whole [process_post] leaves [url_map] as it was, and the front matter
    has no [aliases] key.  A post that is not a draft has an alternate link
    with a non-empty address, goes below [post] and has its pair appended
    to [url_map]. *)
Theorem draft_classification post options :
  (is_draft post = true <->
     has_alternate_link post = false
     \/ exists e, head (List.filter is_alternate (findall post "link")) = Some e
                  /\ (attrib e !! "href" = None
                      \/ attrib e !! "href" = Some EmptyString))
  /\ (forall w title ps d s,
        find_text post "title" = Ok title ->
        find_text post "published" = Ok ps ->
        dateutil_parse ps = Ok d ->
        slugify title = Ok s ->
        is_draft post = true ->
        let root := PathOps.parse (output_folder options) in
        let folder := root // "draft_posts" // (format_date d +:+ "-" +:+ s) in
        resolve_post post options w
        = (w, Ok (title, mkResolved s folder [], format_date d))
        /\ p_root folder = p_root root
        /\ p_parts folder
           = p_parts root
             ++ "draft_posts" :: PathOps.rel_parts (format_date d +:+ "-" +:+ s)
        /\ url_map (process_post post options w).1 = url_map w
        /\ forall author tags fa,
             metadata_dict title s (format_date d) author tags [] fa !! "aliases"
             = None)
  /\ (forall w title ps d,
        find_text post "title" = Ok title ->
        find_text post "published" = Ok ps ->
        dateutil_parse ps = Ok d ->
        is_draft post = false ->
        exists url r,
          find_published_url post = Some url /\ url ≠ EmptyString
          /\ has_alternate_link post = true
          /\ (resolve_post post options w).2 = Ok (title, r, format_date d)
          /\ (exists rest,
                p_parts (post_folder r)
                = p_parts (PathOps.parse (output_folder options)) ++ "post" :: rest)
          /\ exists new_url,
               url_map (process_post post options w).1
               = url_map w ++ [(url, new_url)]).
Proof.
  split; [|split].
  - unfold is_draft, find_published_url.
    pose proof (has_alternate_filter post) as Hf.
    destruct (List.filter is_alternate (findall post "link")) as [|e l] eqn:E.
    + simpl. split; [intros _; left; apply Hf; reflexivity|reflexivity].
    + simpl. split.
      * intros Hd. right. exists e. split; [reflexivity|].
        destruct (attrib e !! "href") as [[|c u]|]; auto. discriminate.
      * intros [Hno|(e' & He & [Hh|Hh])].
        -- apply Hf in Hno. discriminate.
        -- inversion He; subst. rewrite Hh. reflexivity.
        -- inversion He; subst. rewrite Hh. reflexivity.
  - intros w title ps d s Ht Hp Hd Hs Hdraft root folder.
    pose proof (resolve_post_draft post options w title ps d s Ht Hp Hd Hs Hdraft) as Hr.
    split; [exact Hr|].
    destruct (format_date_head d) as (c & t & E & Hc).
    assert (Hfolder : folder
              = mkPath (p_root root)
                  ((p_parts root ++ ["draft_posts"])
                     ++ PathOps.rel_parts (format_date d +:+ "-" +:+ s))).
    { subst folder. rewrite (join_clean _ _ literal_clean_draft_posts).
      rewrite E. sapp. rewrite join_relative; [reflexivity|].
      apply digit_not_special, Hc. }
    split; [rewrite Hfolder; reflexivity|].
    split; [rewrite Hfolder; cbn [p_parts]; rewrite <- app_assoc; reflexivity|].
    split.
    + rewrite process_post_url_map, Hr. reflexivity.
    + intros author tags fa. unfold metadata_dict.
      rewrite !lookup_insert_ne by discriminate. apply lookup_empty.
  - intros w title ps d Ht Hp Hd Hdraft.
    unfold is_draft in Hdraft. apply negb_false_iff in Hdraft.
    destruct (find_published_url post) as [url|] eqn:Eu; [|discriminate].
    assert (Hne : url ≠ EmptyString) by (intros ->; discriminate).
    pose proof (resolve_post_published post options w title ps d url
                  Ht Hp Hd Eu Hne) as Hr. cbv zeta in Hr.
    eexists url, _. split; [reflexivity|]. split; [exact Hne|].
    split.
    { destruct (has_alternate_link post) eqn:Ea; [reflexivity|].
      apply has_alternate_filter in Ea. unfold find_published_url in Eu.
      rewrite Ea in Eu. discriminate. }
    split; [rewrite Hr; reflexivity|]. split.
    + cbn [post_folder].
      rewrite (join_clean _ _ literal_clean_post), (join_clean _ _ (year_clean d)).
      rewrite (join_clean _ _ (date_slug_clean d _ (stem_no_slash _))).
      cbn [p_parts]. rewrite <- !app_assoc. eexists. reflexivity.
    + eexists. rewrite process_post_url_map, Hr. reflexivity.
Qed.


(** ** The document written for a post *)

Lemma write_ok_inv p data f f' :
  Fs.write p data f = Ok f' -> f' = <[PathOps.str p := File data]> f.
Proof.
  unfold Fs.write. intros E.
  destruct (Fs.lookup f p) as [[|]|];
    destruct (Fs.lookup f (PathOps.parent p)) as [[|]|]; congruence.
Qed.

Lemma on_fs_write_inv p data w w1 :
  on_fs (Fs.write p data) w = (w1, Ok tt) ->
  fs w1 = <[PathOps.str p := File data]> (fs w).
Proof.
  unfold on_fs. destruct (Fs.write p data (fs w)) eqn:E; [|discriminate].
  intros Hw. inversion Hw; subst. cbn. eapply write_ok_inv; eauto.
Qed.

(** Open the next bind of a computation known to end normally. *)
Ltac bind_inv H :=
  rewrite run_bind in H;
  match type of H with
  | match ?m ?w with _ => _ end = _ =>
      let E := fresh "E" in
      destruct (m w) as [? [?|?]] eqn:E; [|discriminate H]
  end;
  cbv beta iota in H.

(** A post converted to the end has an [index.md] made of the stripped
    dump of its metadata and of a body. *)
Lemma convert_post_document post options title r date w0 w1 :
  convert_post post options title r date w0 = (w1, Ok tt) ->
  exists author tags body,
    author_name_of post = Ok author
    /\ get_post_tags post = Ok tags
    /\ fs w1 !! PathOps.str (post_folder r // "index.md")
       = Some (File (render_index
                 (PyStr.strip (yaml_dump
                    (metadata_dict title (slug r) date author tags (aliases r)
                       (front_alias options))))
                 body)).
Proof.
  intros Hc. unfold convert_post in Hc.
  bind_inv Hc. bind_inv Hc. bind_inv Hc. bind_inv Hc. bind_inv Hc.
  match type of Hc with context [let '(_, _) := ?x in _] => destruct x end.
  bind_inv Hc. bind_inv Hc. bind_inv Hc. bind_inv Hc.
  apply on_fs_write_inv in Hc. rewrite Hc, lookup_insert_eq.
  repeat match goal with
         | Hl : lift _ _ = (_, Ok _) |- _ => unfold lift in Hl; inversion Hl; clear Hl
         end.
  eauto 10.
Qed.

(** X22: the [index.md] of a post that [process_post] converts to the end
    is a line of three hyphens, the stripped dump of the metadata
    dictionary, a line of three hyphens and a body.  The dictionary maps
    [title], [slug], [published], [author] and [tags] to the values of the
    post as they were read, and has no key besides these five and
    [aliases].  When the stripped dump has no line of three hyphens, the
    block between the first two such lines of the document is exactly that
    stripped dump.  What a YAML reader makes of the block is not part of
    the statement. *)
Theorem index_document_front_matter post options w w0 w1 title r date author tags :
  resolve_post post options w = (w0, Ok (title, r, date)) ->
  process_post post options w = (w1, Ok tt) ->
  author_name_of post = Ok author ->
  get_post_tags post = Ok tags ->
  let md := metadata_dict title (slug r) date author tags (aliases r)
              (front_alias options) in
  let fm := PyStr.strip (yaml_dump md) in
  (exists body,
     fs w1 !! PathOps.str (post_folder r // "index.md")
     = Some (File (render_index fm body))
     /\ (~ In "---" (PyStr.split "010" fm) ->
         front_matter_block (render_index fm body) = Some fm))
  /\ md !! "title" = Some (py_opt title)
  /\ md !! "slug" = Some (PyString (slug r))
  /\ md !! "published" = Some (PyString date)
  /\ md !! "author" = Some (py_opt author)
  /\ md !! "tags" = Some (PyList tags)
  /\ (forall k, is_Some (md !! k) ->
        In k ["title"; "slug"; "published"; "author"; "tags"; "aliases"]).
Proof.
  intros Hr Hp Ha Htags md fm.
  rewrite (process_post_run _ _ _ _ _ _ _ Hr) in Hp.
  destruct (convert_post_document _ _ _ _ _ _ _ Hp)
    as (author' & tags' & body & Ha' & Htags' & Hdoc).
  assert (author' = author) as -> by congruence.
  assert (tags' = tags) as -> by congruence.
  fold md fm in Hdoc.
  split.
  { exists body. split; [exact Hdoc|]. apply front_matter_block_render. }
  assert (Hl : forall (d : gmap string PyValue) k v,
             d !! k = Some v -> k ≠ "aliases" ->
             (match aliases r with
              | _ :: _ => if front_alias options
                          then <["aliases" := PyList (aliases r)]> d else d
              | [] => d
              end) !! k = Some v).
  { intros d k v Hk Hne. destruct (aliases r); [exact Hk|].
    destruct (front_alias options); [|exact Hk].
    rewrite lookup_insert_ne by congruence. exact Hk. }
  subst md. unfold metadata_dict.
  split; [apply Hl; [|discriminate];
          rewrite !lookup_insert_ne by discriminate; apply lookup_insert_eq|].
  split; [apply Hl; [|discriminate];
          rewrite !lookup_insert_ne by discriminate; apply lookup_insert_eq|].
  split; [apply Hl; [|discriminate];
          rewrite !lookup_insert_ne by discriminate; apply lookup_insert_eq|].
  split; [apply Hl; [|discriminate];
          rewrite !lookup_insert_ne by discriminate; apply lookup_insert_eq|].
  split; [apply Hl; [|discriminate]; apply lookup_insert_eq|].
  intros k [v Hk].
  assert (Hbase : forall v',
            (<["tags" := PyList tags]>
               (<["author" := py_opt author]>
                  (<["published" := PyString date]>
                     (<["slug" := PyString (slug r)]>
                        (<["title" := py_opt title]> (∅ : gmap string PyValue))))))
              !! k = Some v' ->
            In k ["title"; "slug"; "published"; "author"; "tags"; "aliases"]).
  { intros v' Hv. rewrite !lookup_insert, lookup_empty in Hv.
    repeat case_decide; subst; simpl; try tauto. discriminate. }
  destruct (aliases r); [eapply Hbase; exact Hk|].
  destruct (front_alias options); [|eapply Hbase; exact Hk].
  rewrite lookup_insert in Hk. case_decide; subst; [simpl; tauto|].
  eapply Hbase; exact Hk.
Qed.

End ScriptFacts.

(** ** The statements on concrete posts *)

Module Examples.

Import Demo.

Local Existing Instance Demo.libs.

(** C8 on an address that is not served and on one that is. *)
Lemma download_and_save_image_status_witness :
  let w := in_post ∅ in
  ((download_and_save_image "http://h.example/gone.png" (folder // "gone.png") w).2
   = Raise (Exception "Can't download image http://h.example/gone.png ; Status code 404")
   /\ fs (download_and_save_image "http://h.example/gone.png" (folder // "gone.png") w).1
      = fs w)
  /\ ((download_and_save_image "http://h.example/i/x.png" (folder // "x.png") w).2 = Ok tt
      /\ fs (download_and_save_image "http://h.example/i/x.png" (folder // "x.png") w).1
         = <[PathOps.str (folder // "x.png") := File "PNG-x"]> (fs w)).
Proof.
  intros w. split.
  - destruct (download_and_save_image_status "http://h.example/gone.png"
                (folder // "gone.png") w) as (_ & Hraise & _).
    apply Hraise. vm_compute. discriminate.
  - destruct (download_and_save_image_status "http://h.example/i/x.png"
                (folder // "x.png") w) as (_ & _ & _ & Hok).
    apply Hok.
    + vm_compute. reflexivity.
    + split; vm_compute; [discriminate|reflexivity].
Defined.

(** C4 on the image of the specification: height 320, original height
    1600. *)
Lemma get_src_resize_if_needed_cases_witness :
  let a : gmap string string := list_to_map resized_attrs in
  get_src_resize_if_needed a
  = Ok (rewrite_size "320" "1600" "http://b.example/x/s320/img.jpg")
  /\ rewrite_size "320" "1600" "http://b.example/x/s320/img.jpg"
     = "http://b.example/x/s1600/img.jpg".
Proof.
  intros a. split; [|vm_compute; reflexivity].
  assert (Hsrc : a !! "src" = Some "http://b.example/x/s320/img.jpg")
    by (vm_compute; reflexivity).
  destruct (proj1 (get_src_resize_if_needed_cases a) _ Hsrc) as (_ & Hheight & _).
  apply Hheight.
  - vm_compute. reflexivity.
  - vm_compute. reflexivity.
  - left. vm_compute. reflexivity.
Defined.

(** C10 on [<a name='top'><img src=...></a>]. *)
Lemma enclosing_link_needs_href_witness :
  let w := in_post tree_no_href in
  replace_image 0 folder 2 w = (w, Raise (KeyError "href"))
  /\ for_each (replace_image 0 folder) ([] ++ [2]) w = (w, Raise (KeyError "href")).
Proof.
  intros w.
  apply (enclosing_link_needs_href 0 folder [] 2 [] w w
           (mkTag "img" (list_to_map [("src", "http://h.example/i/x.png")]) (Some 1) [])
           "http://h.example/i/x.png" 1
           (mkTag "a" (list_to_map [("name", "top")]) (Some 0) [2]));
    vm_compute; reflexivity.
Defined.

(** The whole post with that body stops with the same error. *)
Example process_post_no_href :
  (process_post post_no_href options empty_world).2 = Raise (KeyError "href").
Proof. vm_compute. reflexivity. Qed.

(** C5 on [<a href='.../s1600-h/full.png'><img src='.../thumb.png'></a>]:
    the link is replaced and [full.png] is fetched. *)
Lemma replace_image_target_witness :
  let w := in_post tree_link in
  let res := replace_image 0 folder 2 w in
  res.2 = Ok tt
  /\ requests res.1 = requests w ++ ["http://h.example/i/s1600/full.png"]
  /\ fs res.1 = <[PathOps.str (folder // "full.png") := File "PNG-full"]> (fs w)
  /\ replaced_by_local_image (soup w) (soup res.1) 1 "full.png".
Proof.
  intros w res.
  refine (proj1 (replace_image_target 0 folder 2 w
           (mkTag "img" (list_to_map [("src", "http://h.example/i/thumb.png")]) (Some 1) [])
           "http://h.example/i/thumb.png" "http://h.example/i/thumb.png" 1
           (mkTag "a" (list_to_map [("href", "http://h.example/i/s1600-h/full.png")])
              (Some 0) [2])
           _ _ _ _ _ _)
         "http://h.example/i/s1600-h/full.png" 0
         (mkTag "[document]" ∅ None [1]) _ _ _ _ _ _ _ _);
    try (vm_compute; reflexivity); try (vm_compute; discriminate).
  split; vm_compute; [discriminate|reflexivity].
Defined.

(** C6 on the same body: the address of the link has [/s1600-h/], the
    request goes to [/s1600/] and the file is [full.png]. *)
Lemma filename_of_normalised_address_witness :
  let w := in_post tree_link in
  let res := replace_image 0 folder 2 w in
  requests res.1 = requests w ++ ["http://h.example/i/s1600/full.png"]
  /\ fs res.1 = <[PathOps.str (folder // "full.png") := File "PNG-full"]> (fs w).
Proof.
  intros w res.
  pose proof (filename_of_normalised_address 0 folder 2 w
           (mkTag "img" (list_to_map [("src", "http://h.example/i/thumb.png")]) (Some 1) [])
           "http://h.example/i/thumb.png" "http://h.example/i/thumb.png" 1
           "http://h.example/i/s1600-h/full.png"
           eq_refl eq_refl eq_refl eq_refl) as (Hreq & Hfs & _).
  split; [exact Hreq|]. apply Hfs.
  - vm_compute. reflexivity.
  - split; vm_compute; [discriminate|reflexivity].
Defined.

(** C5 as stated fails on two bodies.  In [<a name='top'><img ...></a>]
    the parent of the image is not a link whose target has the extension of
    the image (it has no target), yet the image is not replaced and nothing
    is fetched: the body of the loop raises and leaves the state as it was.
    In [<a href='.../big.png'><img src='.../1.png'><img src='.../2.png'></a>]
    the link shares the extension of both images; after the first image the
    link is outside the tree, and for the second image the target of the
    link is fetched once more but the link is not replaced: the replacement
    raises. *)
Lemma replace_image_target_counterexample :
  (let w := in_post tree_no_href in
   Soup.tag_at (soup w) 2
   = Some (mkTag "img" (list_to_map [("src", "http://h.example/i/x.png")]) (Some 1) [])
   /\ Soup.tag_at (soup w) 1
      = Some (mkTag "a" (list_to_map [("name", "top")]) (Some 0) [2])
   /\ replace_image 0 folder 2 w = (w, Raise (KeyError "href")))
  /\ (let w := in_post tree_two_in_link in
      let w1 := (replace_image 0 folder 2 w).1 in
      let res := replace_image 0 folder 3 w1 in
      (replace_image 0 folder 2 w).2 = Ok tt
      /\ Soup.tag_at (soup w1) 3
         = Some (mkTag "img" (list_to_map [("src", "http://h.example/i/2.png")]) (Some 1) [])
      /\ Soup.tag_at (soup w1) 1
         = Some (mkTag "a" (list_to_map [("href", "http://h.example/i/big.png")]) None [2; 3])
      /\ res.2 = Raise (ValueError
           "Cannot replace one element with another when the element to be replaced is not part of a tree.")
      /\ requests res.1 = ["http://h.example/i/big.png"; "http://h.example/i/big.png"]
      /\ Soup.tag_at (soup res.1) 1 = Soup.tag_at (soup w1) 1).
Proof. vm_compute. repeat split; reflexivity. Qed.

(** C1 on a destination that already holds the first picture. *)
Lemma existing_image_overwritten_witness :
  let p := folder // "pic.png" in
  let w := set_fs (<[PathOps.str p := File "PNG-a"]> (fs (in_post ∅))) (in_post ∅) in
  let res := download_and_save_image "http://h.example/b/pic.png" p w in
  res.2 = Ok tt
  /\ fs res.1 !! PathOps.str p = Some (File "PNG-b")
  /\ check_if_file_exists p "http://h.example/b/pic.png" w = (w, Raise (SystemExit 1)).
Proof.
  intros p w res.
  assert (Hst : status_code (requests_get "http://h.example/b/pic.png") = 200%Z)
    by (vm_compute; reflexivity).
  assert (Hold : Fs.lookup (fs w) p = Some (File "PNG-a"))
    by (vm_compute; reflexivity).
  assert (Hpar : Fs.lookup (fs w) (PathOps.parent p) = Some Dir)
    by (vm_compute; reflexivity).
  pose proof (existing_image_overwritten "http://h.example/b/pic.png" p w "PNG-a"
                Hst Hold Hpar) as Hk.
  vm_compute in Hk |- *. exact Hk.
Defined.

(** The post with two pictures of the same name is converted to the end:
    two requests, one file, which holds the second picture. *)
Example same_name_images_run :
  let res := process_post post_same_name options empty_world in
  res.2 = Ok tt
  /\ requests res.1 = ["http://h.example/a/pic.png"; "http://h.example/b/pic.png"]
  /\ fs res.1 !! "out/draft_posts/2019-03-05-two-pictures/pic.png"
     = Some (File "PNG-b").
Proof. vm_compute. repeat split; reflexivity. Qed.

(** C2 as stated fails on a post whose alternate link has no [href]: the
    post has a link with [rel='alternate'] and is taken for a draft. *)
Lemma draft_classification_counterexample :
  has_alternate_link post_alternate_no_href = true
  /\ is_draft post_alternate_no_href = true
  /\ resolve_post post_alternate_no_href options empty_world
     = (empty_world,
        Ok (Some "Hello World",
            mkResolved "hello-world"
              (mkPath EmptyString ["out"; "draft_posts"; "2019-03-05-hello-world"]) [],
            "2019-03-05")).
Proof. vm_compute. repeat split; reflexivity. Qed.

(** C2 on a post without any link. *)
Lemma draft_classification_witness :
  let fd := PathOps.parse "out" // "draft_posts" // ("2019-03-05" +:+ "-" +:+ "hello-world") in
  is_draft post_draft = true
  /\ resolve_post post_draft options empty_world
     = (empty_world,
        Ok (Some "Hello World", mkResolved "hello-world" fd [], "2019-03-05"))
  /\ p_parts fd = ["out"; "draft_posts"; "2019-03-05-hello-world"]
  /\ url_map (process_post post_draft options empty_world).1 = [].
Proof.
  intros fd.
  assert (Hd : is_draft post_draft = true) by (vm_compute; reflexivity).
  assert (Ht : find_text post_draft "title" = Ok (Some "Hello World"))
    by (vm_compute; reflexivity).
  assert (Hp : find_text post_draft "published"
               = Ok (Some "2019-03-05T10:00:00.000-07:00"))
    by (vm_compute; reflexivity).
  assert (Hdate : dateutil_parse (Some "2019-03-05T10:00:00.000-07:00")
                  = Ok (mkDatetime 2019 3 5))
    by (vm_compute; reflexivity).
  assert (Hs : slugify (Some "Hello World") = Ok "hello-world")
    by (vm_compute; reflexivity).
  pose proof (proj1 (proj2 (draft_classification post_draft options))
                empty_world _ _ _ _ Ht Hp Hdate Hs Hd) as Hk.
  vm_compute in Hk |- *.
  destruct Hk as (Hr & _ & Hparts & Hmap & _).
  split; [reflexivity|]. split; [exact Hr|]. split; [exact Hparts|exact Hmap].
Defined.



(** C7 on a run that meets the same draft twice. *)
Lemma existing_folder_aborts_witness :
  let w1 := (process_post post_draft options empty_world).1 in
  let res := for_each (fun post => process_post post options)
               [post_draft; post_draft] empty_world in
  (process_post post_draft options empty_world).2 = Ok tt
  /\ res.2 = Raise (FileExistsError "out/draft_posts/2019-03-05-hello-world")
  /\ fs res.1 = fs w1
  /\ requests res.1 = requests w1.
Proof.
  intros w1 res.
  assert (Hp : process_post post_draft options empty_world = (w1, Ok tt))
    by (vm_compute; reflexivity).
  destruct (proj2 (existing_folder_aborts options)
              post_draft post_draft empty_world empty_world w1 w1
              (Some "Hello World")
              (mkResolved "hello-world"
                 (mkPath EmptyString ["out"; "draft_posts"; "2019-03-05-hello-world"]) [])
              "2019-03-05"
              (Some "Hello World")
              (mkResolved "hello-world"
                 (mkPath EmptyString ["out"; "draft_posts"; "2019-03-05-hello-world"]) [])
              "2019-03-05")
    as (Hrun & Hfs & Hreq).
  - vm_compute. reflexivity.
  - exact Hp.
  - vm_compute. reflexivity.
  - reflexivity.
  - subst res. rewrite Hrun. rewrite Hp.
    split; [reflexivity|]. split; [reflexivity|]. split; [exact Hfs|exact Hreq].
Defined.

(** X22 on the published post of the examples. *)
Lemma index_document_front_matter_witness :
  let w1 := (process_post post_published options empty_world).1 in
  let md := metadata_dict (Some "Hello World") "my-post" "2019-03-05" (Some "Ann")
              ["rocq"; "blog"] ["/2019/03/my-post.html"] true in
  let fm := PyStr.strip (Demo.yaml_dump md) in
  exists body,
    fs w1 !! "out/post/2019/2019-03-05-my-post/index.md"
    = Some (File (render_index fm body))
    /\ front_matter_block (render_index fm body) = Some fm.
Proof.
  intros w1 md fm.
  assert (Hr : resolve_post post_published options empty_world
               = (set_url_map [("https://old.example/2019/03/my-post.html",
                                "/blog/2019/03/my-post")] empty_world,
                  Ok (Some "Hello World",
                      mkResolved "my-post"
                        (mkPath EmptyString ["out"; "post"; "2019"; "2019-03-05-my-post"])
                        ["/2019/03/my-post.html"],
                      "2019-03-05")))
    by (vm_compute; reflexivity).
  assert (Hp : process_post post_published options empty_world = (w1, Ok tt))
    by (vm_compute; reflexivity).
  assert (Ha : author_name_of post_published = Ok (Some "Ann"))
    by (vm_compute; reflexivity).
  assert (Htags : get_post_tags post_published = Ok ["rocq"; "blog"])
    by (vm_compute; reflexivity).
  destruct (index_document_front_matter post_published options empty_world _ w1
              _ _ _ _ _ Hr Hp Ha Htags) as [(body & Hdoc & Hblock) _].
  exists body. split; [exact Hdoc|]. apply Hblock.
  vm_compute. intros Hin. repeat (destruct Hin as [Hin|Hin]; [discriminate Hin|]).
  exact Hin.
Defined.

End Examples.

(** * The rest of the script *)

(** ** [get_post_entries] and [get_post_tags] *)

Lemma is_post_category_readable c :
  kind_readable c -> is_post_category c = Ok (is_post_kind c).
Proof.
  intros (s & Hs & Ht). unfold is_post_category, is_post_kind, getitem.
  rewrite Hs. destruct (String.eqb_spec s CATEGORY_KIND) as [->|Hne].
  - destruct (Ht eq_refl) as [t Hterm]. rewrite Hterm. f_equal.
    destruct (String.eqb_spec t TERM_POST) as [->|Hnt].
    + rewrite bool_decide_true; [reflexivity|split; reflexivity].
    + rewrite bool_decide_false; [reflexivity|]. intros [_ E]. congruence.
  - rewrite bool_decide_false; [reflexivity|]. intros [E _]. congruence.
Qed.

Lemma any_post_category_readable cs :
  Forall kind_readable cs -> any_post_category cs = Ok (existsb is_post_kind cs).
Proof.
  induction 1 as [|c cs Hc _ IH]; [reflexivity|]. simpl.
  rewrite (is_post_category_readable _ Hc).
  destruct (is_post_kind c); [reflexivity|exact IH].
Qed.

(** The inner loop stops at the first category that marks a post: what
    comes after it is not read. *)
Lemma any_post_category_break pre c rest :
  Forall (fun x => is_post_category x = Ok false) pre ->
  any_post_category (pre ++ c :: rest)
  = match is_post_category c with
    | Ok true => Ok true
    | Ok false => any_post_category rest
    | Raise e => Raise e
    end.
Proof.
  induction 1 as [|x pre Hx _ IH]; [reflexivity|].
  simpl. rewrite Hx. exact IH.
Qed.

Lemma filter_posts_app l1 l2 r1 :
  filter_posts l1 = Ok r1 ->
  filter_posts (l1 ++ l2)
  = match filter_posts l2 with
    | Ok r2 => Ok (r1 ++ r2)
    | Raise e => Raise e
    end.
Proof.
  revert r1. induction l1 as [|e l1 IH]; intros r1 H1; simpl in *.
  - inversion H1; subst. destruct (filter_posts l2); reflexivity.
  - destruct (any_post_category (findall e "category")) as [b|x]; [|discriminate].
    destruct (filter_posts l1) as [r|x] eqn:E1; [|discriminate].
    rewrite (IH r eq_refl). inversion H1; subst.
    destruct (filter_posts l2); [|reflexivity].
    destruct b; reflexivity.
Qed.

(** X1: when every category of every entry can be read, the filter returns
    exactly the entries that have a category with the kind scheme and the
    post term, in the order of the document. *)
Theorem get_post_entries_filter xml_root :
  Forall (fun e => Forall kind_readable (findall e "category"))
         (findall xml_root "entry") ->
  get_post_entries xml_root
  = Ok (List.filter is_post_entry (findall xml_root "entry")).
Proof.
  unfold get_post_entries. induction 1 as [|e es He _ IH]; [reflexivity|].
  simpl. rewrite (any_post_category_readable _ He), IH. reflexivity.
Qed.

(** X2: an entry is kept as soon as one of its categories marks a post,
    whatever the categories after that one are: they are not read, so a
    category without [scheme] behind the mark does no harm. *)
Theorem get_post_entries_break xml_root before e after pre c rest l1 l2 :
  findall xml_root "entry" = before ++ e :: after ->
  filter_posts before = Ok l1 ->
  filter_posts after = Ok l2 ->
  findall e "category" = pre ++ c :: rest ->
  Forall (fun x => is_post_category x = Ok false) pre ->
  is_post_kind c = true ->
  get_post_entries xml_root = Ok (l1 ++ e :: l2).
Proof.
  intros Hes H1 H2 Hcs Hpre Hc. unfold get_post_entries. rewrite Hes.
  rewrite (filter_posts_app _ _ _ H1). simpl.
  rewrite Hcs, (any_post_category_break _ _ _ Hpre), H2.
  unfold is_post_kind in Hc. apply bool_decide_eq_true in Hc as [Hs Ht].
  unfold is_post_category, getitem. rewrite Hs, Ht. reflexivity.
Qed.

(** X3: a category without [scheme] that is met before any mark of a post
    stops the filter with [KeyError]; it does so in any entry, post or
    not, once the entries before it have been read. *)
Theorem get_post_entries_missing_scheme xml_root before e after pre c rest l1 :
  findall xml_root "entry" = before ++ e :: after ->
  filter_posts before = Ok l1 ->
  findall e "category" = pre ++ c :: rest ->
  Forall (fun x => is_post_category x = Ok false) pre ->
  attrib c !! "scheme" = None ->
  get_post_entries xml_root = Raise (KeyError "scheme").
Proof.
  intros Hes H1 Hcs Hpre Hc. unfold get_post_entries. rewrite Hes.
  assert (Hany : any_post_category (findall e "category") = Raise (KeyError "scheme")).
  { rewrite Hcs, (any_post_category_break _ _ _ Hpre).
    unfold is_post_category, getitem. rewrite Hc. reflexivity. }
  clear Hes. revert l1 H1. induction before as [|b before IH]; intros l1 H1; simpl in *.
  - rewrite Hany. reflexivity.
  - destruct (any_post_category (findall b "category")); [|discriminate].
    destruct (filter_posts before) as [r|x]; [|discriminate].
    rewrite (IH r eq_refl). reflexivity.
Qed.

Lemma collect_tags_readable cs :
  Forall tag_readable cs -> collect_tags cs = Ok (omap tag_term cs).
Proof.
  induction 1 as [|c cs (s & Hs & Ht) _ IH]; [reflexivity|].
  simpl. unfold getitem, tag_term. rewrite Hs.
  destruct (String.eqb_spec s CATEGORY_TAG) as [->|Hne].
  - destruct (Ht eq_refl) as [t Hterm]. rewrite Hterm, IH.
    rewrite bool_decide_true by reflexivity. reflexivity.
  - rewrite IH, bool_decide_false by congruence. reflexivity.
Qed.

(** X4: when every category of the post can be read, the tags are the
    terms of the categories with the tag scheme, in the order of the
    document; a tag is in the list exactly when such a category carries
    it, and the mark of the kind of the entry is never a tag. *)
Theorem get_post_tags_terms post :
  Forall tag_readable (findall post "category") ->
  get_post_tags post = Ok (omap tag_term (findall post "category"))
  /\ (forall t,
        In t (omap tag_term (findall post "category"))
        <-> exists c, In c (findall post "category")
                      /\ attrib c !! "scheme" = Some CATEGORY_TAG
                      /\ attrib c !! "term" = Some t)
  /\ (forall c, In c (findall post "category") ->
        is_post_kind c = true -> tag_term c = None).
Proof.
  intros Hr. split; [apply collect_tags_readable, Hr|]. split.
  - intros t. rewrite <- list_elem_of_In, list_elem_of_omap. split.
    + intros (c & Hin & Hc). exists c. rewrite <- list_elem_of_In.
      split; [exact Hin|]. unfold tag_term in Hc.
      case_bool_decide; [auto|discriminate].
    + intros (c & Hin & Hs & Ht). exists c. rewrite list_elem_of_In.
      split; [exact Hin|]. unfold tag_term.
      rewrite bool_decide_true by exact Hs. exact Ht.
  - intros c _ Hk. unfold is_post_kind in Hk.
    apply bool_decide_eq_true in Hk as [Hs _]. unfold tag_term.
    rewrite bool_decide_false; [reflexivity|]. rewrite Hs. discriminate.
Qed.

Lemma collect_tags_prefix pre l :
  Forall tag_readable pre ->
  collect_tags (pre ++ l)
  = match collect_tags l with
    | Ok r => Ok (omap tag_term pre ++ r)
    | Raise e => Raise e
    end.
Proof.
  induction 1 as [|x pre (s & Hs & Ht) _ IH].
  - simpl. destruct (collect_tags l); reflexivity.
  - simpl. unfold getitem, tag_term. rewrite Hs.
    destruct (String.eqb_spec s CATEGORY_TAG) as [->|Hne].
    + destruct (Ht eq_refl) as [t Hterm]. rewrite Hterm, IH.
      rewrite bool_decide_true by reflexivity.
      destruct (collect_tags l); reflexivity.
    + rewrite IH, bool_decide_false by congruence. reflexivity.
Qed.

(** X5: a category without [scheme], or one with the tag scheme and
    without [term], stops [get_post_tags] with [KeyError] on the missing
    key, once the categories before it have been read. *)
Theorem get_post_tags_missing_key post pre c rest :
  findall post "category" = pre ++ c :: rest ->
  Forall tag_readable pre ->
  (attrib c !! "scheme" = None -> get_post_tags post = Raise (KeyError "scheme"))
  /\ (attrib c !! "scheme" = Some CATEGORY_TAG -> attrib c !! "term" = None ->
      get_post_tags post = Raise (KeyError "term")).
Proof.
  intros Hcs Hpre. unfold get_post_tags.
  rewrite Hcs, (collect_tags_prefix _ _ Hpre). simpl. unfold getitem. split.
  - intros ->. reflexivity.
  - intros -> ->. reflexivity.
Qed.

(** ** [posts[:n]] and the text of [url_map.csv] *)

(** X6: the posts that [--num_posts] leaves are a prefix of the posts, all
    of them when the option is absent; a count [z >= 0] keeps the first [z]
    (all, when there are fewer) and a negative count drops the last [-z]
    (none is left when there are not more than that). *)
Theorem slice_to_prefix {A} (n : option Z) (l : list A) :
  (exists rest, l = slice_to n l ++ rest)
  /\ (n = None -> slice_to n l = l)
  /\ (forall z, n = Some z ->
        Z.of_nat (List.length (slice_to n l))
        = if (0 <=? z)%Z then Z.min z (Z.of_nat (List.length l))
          else Z.max 0 (Z.of_nat (List.length l) + z)).
Proof.
  split; [|split].
  - destruct n as [z|]; simpl.
    + destruct (0 <=? z)%Z; eexists; symmetry; apply take_drop.
    + exists []. symmetry. apply app_nil_r.
  - intros ->. reflexivity.
  - intros z ->. simpl. destruct (Z.leb_spec 0 z); rewrite length_take; lia.
Qed.

Lemma concat_empty_cons x xs :
  String.concat EmptyString (x :: xs) = x +:+ String.concat EmptyString xs.
Proof.
  destruct xs as [|y ys]; simpl.
  - symmetry. apply append_empty_r.
  - reflexivity.
Qed.

Lemma comma_no_newline : no_char "010" ",".
Proof. repeat constructor. discriminate. Qed.

(** X7: when no address holds a line break, the text of [url_map.csv] has
    one line per pair, in the order of the list, made of the old address, a
    comma, the new address and a comma, and it ends with a line break (so
    an empty list gives the empty text). *)
Theorem url_map_text_lines (m : list (string * string)) :
  Forall (fun e => no_char "010" e.1 /\ no_char "010" e.2) m ->
  PyStr.split "010" (url_map_text m) = List.map url_map_line m ++ [EmptyString].
Proof.
  unfold url_map_text. induction 1 as [|[o n] m [Ho Hn] _ IH]; [reflexivity|].
  cbn [List.map]. rewrite concat_empty_cons.
  replace (o +:+ "," +:+ n +:+ "," +:+ String "010" EmptyString)
    with (url_map_line (o, n) +:+ String "010" EmptyString)
    by (unfold url_map_line; cbn [fst snd]; rewrite !append_assoc; reflexivity).
  rewrite append_assoc, app_cons, app_nil_l, split_app_sep, IH.
  rewrite split_no_sep; [reflexivity|].
  unfold url_map_line. cbn [fst snd] in Ho, Hn |- *.
  apply no_char_app; split; [exact Ho|].
  apply no_char_app; split; [apply comma_no_newline|].
  apply no_char_app; split; [exact Hn|apply comma_no_newline].
Qed.

(** ** The date of the folder name *)

Lemma pretty_N_go_length k x s :
  (x < 10 ^ N.of_nat k)%N ->
  String.length (pretty_N_go x s) <= String.length s + k.
Proof.
  revert x s. induction k as [|k IH]; intros x s Hx.
  - assert (x = 0%N) as -> by (simpl in Hx; lia). rewrite pretty_N_go_0. lia.
  - assert (x = 0 \/ 0 < x)%N as [->|Hpos] by lia.
    + rewrite pretty_N_go_0. lia.
    + rewrite pretty_N_go_step by done.
      etransitivity; [apply IH|simpl; lia].
      apply N.Div0.div_lt_upper_bound.
      rewrite Nat2N.inj_succ, N.pow_succ_r' in Hx. exact Hx.
Qed.

Lemma pretty_N_length k (n : N) :
  0 < k -> (n < 10 ^ N.of_nat k)%N -> String.length (pretty n) <= k.
Proof.
  intros Hk Hn. unfold pretty, pretty_N. case_decide.
  - simpl. lia.
  - apply (pretty_N_go_length k n EmptyString Hn).
Qed.

Lemma zeros_length j :
  String.length (String.concat EmptyString (List.repeat "0" j)) = j.
Proof.
  induction j as [|j IH]; [reflexivity|].
  cbn [List.repeat]. rewrite concat_empty_cons, string_length_app, IH. reflexivity.
Qed.

Lemma zfill_length w s :
  String.length s <= w -> String.length (PyStr.zfill w s) = w.
Proof.
  intros Hs. unfold PyStr.zfill. rewrite string_length_app, zeros_length. lia.
Qed.

(** X8: for a year below 10000 and a month and a day below 100 the date
    string has the shape [YYYY-MM-DD]: four digits, a hyphen, two digits, a
    hyphen, two digits. *)
Theorem format_date_shape d :
  (year d < 10000)%N -> (month d < 100)%N -> (day d < 100)%N ->
  exists y m dd,
    format_date d = y +:+ "-" +:+ m +:+ "-" +:+ dd
    /\ String.length y = 4 /\ String.length m = 2 /\ String.length dd = 2
    /\ all_digits y /\ all_digits m /\ all_digits dd.
Proof.
  intros Hy Hm Hd.
  exists (PyStr.zfill 4 (pretty (year d))), (PyStr.zfill 2 (pretty (month d))),
         (PyStr.zfill 2 (pretty (day d))).
  split; [reflexivity|].
  destruct (pretty_N_digits (year d)) as [Dy Ny].
  destruct (pretty_N_digits (month d)) as [Dm Nm].
  destruct (pretty_N_digits (day d)) as [Dd Nd].
  repeat split;
    try (apply zfill_length, pretty_N_length; [lia|assumption]);
    try (apply zfill_digits; assumption).
Qed.

(** ** Extensions and equal sizes *)

Lemma extension_dotted base ext :
  no_char "." ext -> extension (base +:+ "." +:+ ext) = Some ext.
Proof.
  intros He. unfold extension. rewrite app_cons, app_nil_l, split_app_sep.
  rewrite (split_no_sep _ _ He). apply last_snoc.
Qed.

Lemma extension_no_dot a : no_char "." a -> extension a = Some a.
Proof. intros Ha. unfold extension. rewrite (split_no_sep _ _ Ha). reflexivity. Qed.

(** X9: two addresses have an identical extension when the texts after
    their last dots are equal: for [b1.e1] and [b2.e2] with dot-free [e1]
    and [e2] exactly when [e1 = e2] (compared as they are, with a query
    string if there is one); an address without any dot counts as a whole
    as its own extension.  The test is reflexive and symmetric. *)
Theorem has_identical_extension_spec :
  (forall b1 e1 b2 e2,
     no_char "." e1 -> no_char "." e2 ->
     has_identical_extension (b1 +:+ "." +:+ e1) (b2 +:+ "." +:+ e2) = true
     <-> e1 = e2)
  /\ (forall a b2 e2,
     no_char "." a -> no_char "." e2 ->
     has_identical_extension a (b2 +:+ "." +:+ e2) = true <-> a = e2)
  /\ (forall a, has_identical_extension a a = true)
  /\ (forall a b, has_identical_extension a b = has_identical_extension b a).
Proof.
  unfold has_identical_extension. fold (extension).
  split; [|split; [|split]].
  - intros b1 e1 b2 e2 H1 H2.
    change (bool_decide (extension (b1 +:+ "." +:+ e1) = extension (b2 +:+ "." +:+ e2)) = true <-> e1 = e2).
    rewrite !extension_dotted by assumption. rewrite bool_decide_eq_true.
    split; congruence.
  - intros a b2 e2 H1 H2.
    change (bool_decide (extension a = extension (b2 +:+ "." +:+ e2)) = true <-> a = e2).
    rewrite extension_dotted, extension_no_dot by assumption.
    rewrite bool_decide_eq_true. split; congruence.
  - intros a. apply bool_decide_eq_true. reflexivity.
  - intros a b. apply bool_decide_ext. split; congruence.
Qed.

Lemma prefix_true_app x s :
  String.prefix x s = true -> exists r, s = x +:+ r.
Proof.
  revert s. induction x as [|a x IH]; intros s Hp.
  - exists s. reflexivity.
  - destruct s as [|b s]; [discriminate|]. rewrite prefix_cons in Hp.
    destruct (ascii_dec a b) as [->|]; [|discriminate].
    destruct (IH s Hp) as [r ->]. exists r. reflexivity.
Qed.

Lemma replace_go_same old n s :
  old ≠ EmptyString -> String.length s <= n ->
  PyStr.replace_go old old s 0 = s.
Proof.
  intros Hold. revert s. induction n as [|n IH]; intros s Hlen.
  - destruct s; [reflexivity|simpl in Hlen; lia].
  - destruct s as [|c t]; [reflexivity|]. cbn [PyStr.replace_go].
    destruct (String.prefix old (String c t)) eqn:Hp.
    + destruct (prefix_true_app _ _ Hp) as [r Hr].
      destruct old as [|c' o]; [congruence|]. rewrite app_cons in Hr.
      inversion Hr; subst. cbn [String.length].
      replace (S (String.length o) - 1) with (String.length o) by lia.
      rewrite replace_go_skip, IH; [reflexivity|].
      simpl in Hlen. rewrite string_length_app in Hlen. lia.
    + f_equal. apply IH. simpl in Hlen. lia.
Qed.

(** X10: an image whose rendered size and original size are equal, for
    each pair that is present, keeps its [src] as candidate address. *)
Theorem get_src_resize_equal_sizes (a : gmap string string) src :
  a !! "src" = Some src ->
  (forall h oh, a !! "height" = Some h ->
                a !! "data-original-height" = Some oh -> h = oh) ->
  (forall wd owd, a !! "width" = Some wd ->
                  a !! "data-original-width" = Some owd -> wd = owd) ->
  get_src_resize_if_needed a = Ok src.
Proof.
  intros Hsrc Hh Hw. unfold get_src_resize_if_needed, getitem. rewrite Hsrc.
  assert (Hsame : forall s x, PyStr.replace ("/s" +:+ x +:+ "/") ("/s" +:+ x +:+ "/") s = s).
  { intros s x. unfold PyStr.replace. rewrite !app_cons.
    apply (replace_go_same _ (String.length s)); [discriminate|lia]. }
  f_equal. unfold resize_if_needed.
  destruct (a !! "height") as [h|] eqn:E1;
    destruct (a !! "data-original-height") as [oh|] eqn:E2;
    destruct (a !! "width") as [wd|] eqn:E3;
    destruct (a !! "data-original-width") as [owd|] eqn:E4;
    try rewrite (Hh _ _ eq_refl eq_refl);
    try rewrite (Hw _ _ eq_refl eq_refl);
    rewrite ?Hsame; reflexivity.
Qed.

(** ** The destination of an image *)

Lemma rel_parts_kept rel x :
  In x (PathOps.rel_parts rel) -> x ≠ EmptyString /\ x ≠ ".".
Proof.
  unfold PathOps.rel_parts. intros Hin. apply filter_In in Hin as [_ Hk].
  unfold PathOps.keep_part in Hk. apply andb_true_iff in Hk as [H1 H2].
  split; intros ->; discriminate.
Qed.

Lemma parse_parts_kept s x :
  In x (p_parts (PathOps.parse s)) -> x ≠ EmptyString /\ x ≠ ".".
Proof.
  unfold PathOps.parse. destruct s as [|c t]; [apply rel_parts_kept|].
  destruct c as [[] [] [] [] [] [] [] []]; apply rel_parts_kept.
Qed.

(** A name that is not empty is a clean component. *)
Lemma name_clean s :
  PathOps.name (PathOps.parse s) ≠ EmptyString ->
  clean_component (PathOps.name (PathOps.parse s)).
Proof.
  intros Hne. unfold PathOps.name in *.
  destruct (last (p_parts (PathOps.parse s))) as [x|] eqn:E; [|congruence].
  apply last_In in E. destruct (parse_parts_kept _ _ E) as [H1 H2].
  split; [exact H1|]. split; [exact H2|]. eapply parse_parts_no_slash, E.
Qed.

Lemma path_eta p : mkPath (p_root p) (p_parts p) = p.
Proof. destruct p. reflexivity. Qed.

Lemma parent_join_clean p s : clean_component s -> PathOps.parent (p // s) = p.
Proof.
  intros Hc. rewrite (join_clean _ _ Hc). unfold PathOps.parent.
  cbn [p_root p_parts]. rewrite removelast_last. apply path_eta.
Qed.

Lemma join_empty p : p // EmptyString = p.
Proof.
  unfold PathOps.join. cbn. rewrite app_nil_r. apply path_eta.
Qed.

(** X11: the file of an image lies directly in the folder of the post:
    when the path of the address has a final segment, the destination is
    the folder extended by that one segment, whatever directories the path
    of the address goes through, and it can be written as soon as the
    folder is a directory and the destination is not one. *)
Theorem image_destination folder s :
  let nm := PathOps.name (PathOps.parse s) in
  nm ≠ EmptyString ->
  folder // nm = mkPath (p_root folder) (p_parts folder ++ [nm])
  /\ PathOps.parent (folder // nm) = folder
  /\ PathOps.name (folder // nm) = nm
  /\ no_char "/" nm
  /\ (forall f, Fs.lookup f folder = Some Dir ->
                Fs.lookup f (folder // nm) ≠ Some Dir ->
                writable f (folder // nm)).
Proof.
  intros nm Hne. pose proof (name_clean s Hne) as Hc. fold nm in Hc.
  split; [apply join_clean, Hc|]. split; [apply parent_join_clean, Hc|].
  split.
  { rewrite (join_clean _ _ Hc). unfold PathOps.name. cbn [p_parts].
    rewrite last_snoc. reflexivity. }
  split; [apply Hc|].
  intros f Hd Hn. split; [exact Hn|]. rewrite (parent_join_clean _ _ Hc). exact Hd.
Qed.

Section MoreFacts.

Context `{Collaborators}.

(** ** One image *)

(** X12: when the address chosen for an image is answered with a status
    other than 200, the body of the loop raises the download exception
    after that one request: no file is written and the tree is as it was. *)
Theorem replace_image_download_fails html folder img w t src cand target url :
  Soup.tag_at (soup w) img = Some t ->
  attrs t !! "src" = Some src ->
  get_src_resize_if_needed (attrs t) = Ok cand ->
  choose_target img cand (parent t) w = (w, Ok (target, url)) ->
  let href := re_sub_size_h url in
  status_code (requests_get href) ≠ 200%Z ->
  replace_image html folder img w
  = (logged href w,
     Raise (Exception (download_error href (status_code (requests_get href))))).
Proof.
  intros Ht Hs Hc Hch href Hst.
  destruct (replace_image_run html folder img w t src Ht Hs) as (cand' & Hc' & ->).
  assert (cand' = cand) as -> by congruence.
  rewrite Hch. cbv zeta. fold href.
  rewrite run_bind, download_run, bool_decide_true by exact Hst. reflexivity.
Qed.

(** X13: when the path of the address chosen for an image has no final
    segment (the path is empty or [/], as for the address of a host alone),
    the destination is the folder of the post itself: the address is
    requested and then the write raises [IsADirectoryError]; the tree is as
    it was. *)
Theorem replace_image_no_file_name html folder img w t src cand target url :
  Soup.tag_at (soup w) img = Some t ->
  attrs t !! "src" = Some src ->
  get_src_resize_if_needed (attrs t) = Ok cand ->
  choose_target img cand (parent t) w = (w, Ok (target, url)) ->
  let href := re_sub_size_h url in
  PathOps.name (PathOps.parse (urlparse_path href)) = EmptyString ->
  status_code (requests_get href) = 200%Z ->
  Fs.lookup (fs w) folder = Some Dir ->
  replace_image html folder img w
  = (logged href w, Raise (IsADirectoryError (PathOps.str folder))).
Proof.
  intros Ht Hs Hc Hch href Hnm Hst Hdir.
  destruct (replace_image_run html folder img w t src Ht Hs) as (cand' & Hc' & ->).
  assert (cand' = cand) as -> by congruence.
  rewrite Hch. cbv zeta. fold href. rewrite Hnm, join_empty.
  rewrite run_bind, download_run.
  rewrite bool_decide_false by (intros Hne; apply Hne; exact Hst).
  unfold Fs.write. rewrite Hdir. reflexivity.
Qed.

Lemma for_each_no_src html folder imgs w :
  Forall (fun i => exists t, Soup.tag_at (soup w) i = Some t
                             /\ attrs t !! "src" = None) imgs ->
  for_each (replace_image html folder) imgs w = (w, Ok tt).
Proof.
  induction 1 as [|i imgs (t & Ht & Hs) _ IH]; [reflexivity|].
  rewrite for_each_cons, (replace_image_no_src _ _ _ _ _ Ht Hs). exact IH.
Qed.

(** X14: a body in which no [img] element has a [src] (in particular a
    body without images) goes through [replace_images_with_downloaded]
    untouched: no request, no file, the same tree, and the root is
    returned. *)
Theorem replace_images_nothing_to_do html folder w :
  (forall i t, Soup.tag_at (soup w) i = Some t -> name t = "img" ->
               attrs t !! "src" = None) ->
  replace_images_with_downloaded html folder w = (w, Ok html).
Proof.
  intros Hno. unfold replace_images_with_downloaded.
  rewrite run_bind. cbn [Soup.find_all]. rewrite run_bind.
  rewrite for_each_no_src; [reflexivity|].
  apply Forall_forall. intros i Hin.
  apply list_elem_of_In, filter_In in Hin as [_ Hn].
  unfold Soup.is_tag_named in Hn.
  destruct (Soup.tag_at (soup w) i) as [t|] eqn:Et; [|discriminate].
  exists t. split; [reflexivity|]. eapply Hno; [exact Et|].
  apply String.eqb_eq, Hn.
Qed.

(** ** What a post leaves of the files that were there *)

Lemma os_mkdir_keeps_entries p f f' k e :
  Fs.os_mkdir p f = Ok f' -> f !! k = Some e -> f' !! k = Some e.
Proof.
  unfold Fs.os_mkdir, Fs.lookup. intros E Hk.
  destruct (p_parts p) eqn:Ep; [discriminate|].
  destruct (f !! PathOps.str p) eqn:Hp; [discriminate|].
  destruct (match p_parts (PathOps.parent p) with
            | [] => Some Dir
            | _ :: _ => f !! PathOps.str (PathOps.parent p)
            end) as [[|]|]; try discriminate.
  inversion E; subst. rewrite lookup_insert_ne; [exact Hk|]. congruence.
Qed.

Lemma mkdir_exist_ok_keeps_entries n p f f' k e :
  Fs.mkdir_exist_ok n p f = Ok f' -> f !! k = Some e -> f' !! k = Some e.
Proof.
  revert p f f'. induction n as [|n IH]; intros p f f' E Hk; simpl in E.
  - destruct (Fs.os_mkdir p f) as [f0|x] eqn:E0.
    + inversion E; subst. eapply os_mkdir_keeps_entries; eauto.
    + destruct x; try discriminate;
        destruct (Fs.is_dir f p); inversion E; subst; assumption.
  - destruct (Fs.os_mkdir p f) as [f0|x] eqn:E0.
    + inversion E; subst. eapply os_mkdir_keeps_entries; eauto.
    + destruct x;
        try (destruct (Fs.is_dir f p); inversion E; subst; assumption).
      destruct (Fs.mkdir_exist_ok n (PathOps.parent p) f) as [f1|e1] eqn:E1;
        [|discriminate].
      pose proof (IH _ _ _ E1 Hk) as Hk1.
      destruct (Fs.os_mkdir p f1) as [f2|e2] eqn:E2.
      * inversion E; subst. eapply os_mkdir_keeps_entries; eauto.
      * destruct (Fs.is_dir f1 p); inversion E; subst. assumption.
Qed.

(** Creating a folder with its parents leaves every entry that exists. *)
Lemma mkdir_parents_keeps_entries p f f' k e :
  Fs.mkdir_parents p f = Ok f' -> f !! k = Some e -> f' !! k = Some e.
Proof.
  unfold Fs.mkdir_parents. intros E Hk.
  destruct (Fs.os_mkdir p f) as [f0|x] eqn:E0.
  - inversion E; subst. eapply os_mkdir_keeps_entries; eauto.
  - destruct x; try discriminate.
    destruct (p_parts p); [discriminate|].
    destruct (Fs.mkdir_exist_ok _ _ f) as [f1|e1] eqn:E1; [|discriminate].
    eapply os_mkdir_keeps_entries; [exact E|].
    eapply mkdir_exist_ok_keeps_entries; eauto.
Qed.

Global Instance other_files_kept_preorder folder :
  PreOrder (other_files_kept folder).
Proof.
  split.
  - intros w k data _ Hk. exact Hk.
  - intros w1 w2 w3 H12 H23 k data Hne Hk. eauto.
Qed.

Lemma kept_same_fs folder w w' : fs w' = fs w -> other_files_kept folder w w'.
Proof. intros E k data _ Hk. rewrite E. exact Hk. Qed.

Lemma kept_mkdir folder p :
  preserves (other_files_kept folder) (on_fs (Fs.mkdir_parents p)).
Proof.
  intros w. unfold on_fs. destruct (Fs.mkdir_parents p (fs w)) eqn:E; simpl.
  - intros k data _ Hk. cbn. eapply mkdir_parents_keeps_entries; eauto.
  - reflexivity.
Qed.

Lemma in_folder_name folder s :
  in_folder folder (folder // PathOps.name (PathOps.parse s)).
Proof.
  destruct (decide (PathOps.name (PathOps.parse s) = EmptyString)) as [->|Hne].
  - left. apply join_empty.
  - right. eexists. apply join_clean, name_clean, Hne.
Qed.

Lemma in_folder_index folder : in_folder folder (folder // "index.md").
Proof.
  right. eexists. apply join_clean.
  repeat split; try discriminate. repeat constructor; discriminate.
Qed.

Lemma kept_write folder p data :
  in_folder folder p ->
  preserves (other_files_kept folder) (on_fs (Fs.write p data)).
Proof.
  intros Hp w. unfold on_fs. destruct (Fs.write _ data (fs w)) eqn:E; simpl.
  - intros k d Hne Hk. cbn. apply write_ok_inv in E. subst.
    rewrite lookup_insert_ne; [exact Hk|]. intros Heq. apply (Hne p Hp). congruence.
  - reflexivity.
Qed.

Lemma kept_download folder image_src p :
  in_folder folder p ->
  preserves (other_files_kept folder) (download_and_save_image image_src p).
Proof.
  intros Hp w. rewrite download_run. case_bool_decide.
  - apply kept_same_fs. reflexivity.
  - destruct (Fs.write _ _ _) eqn:E; simpl.
    + intros k d Hne Hk. cbn. apply write_ok_inv in E. subst.
      rewrite lookup_insert_ne; [exact Hk|]. intros Heq. apply (Hne p Hp). congruence.
    + apply kept_same_fs. reflexivity.
Qed.

Lemma kept_new_tag folder n a : preserves (other_files_kept folder) (Soup.new_tag n a).
Proof. intros w. apply kept_same_fs. reflexivity. Qed.

Lemma kept_replace_with folder old new :
  preserves (other_files_kept folder) (Soup.replace_with old new).
Proof.
  intros w. destruct (replace_with_frame old new w) as (Ef & _ & _).
  apply kept_same_fs. exact Ef.
Qed.

Lemma kept_modify folder (f : World -> World) :
  (forall w, fs (f w) = fs w) ->
  preserves (other_files_kept folder) (modify f).
Proof. intros Hf w. simpl. apply kept_same_fs, Hf. Qed.

Create HintDb kept.

(** Break a goal on the files kept down along the binds. *)
Ltac kept_step :=
  first
    [ solve [auto 1 with kept nocore]
    | apply preserves_ret; apply _
    | apply preserves_lift; apply _
    | apply preserves_raise; apply _
    | apply preserves_get; apply _
    | apply preserves_tag_of; apply _
    | apply preserves_find_all; apply _
    | apply kept_download; apply in_folder_name
    | apply kept_new_tag
    | apply kept_replace_with
    | apply kept_mkdir
    | apply kept_write; apply in_folder_index
    | apply kept_modify; intros ?; reflexivity
    | apply preserves_bind; [apply _| |intros ?] ].

Lemma kept_choose_target folder img href up :
  preserves (other_files_kept folder) (choose_target img href up).
Proof.
  unfold choose_target. destruct up; repeat kept_step.
  destruct (String.eqb _ _); repeat kept_step.
  destruct (has_identical_extension _ _); repeat kept_step.
Qed.

#[local] Hint Resolve kept_choose_target : kept.

Lemma kept_replace_image html folder img :
  preserves (other_files_kept folder) (replace_image html folder img).
Proof.
  unfold replace_image, Soup.find_parent. repeat kept_step.
  destruct (attrs _ !! "src"); repeat kept_step.
  match goal with x : (nat * string)%type |- _ => destruct x end.
  repeat kept_step.
Qed.

Lemma kept_replace_images html folder :
  preserves (other_files_kept folder) (replace_images_with_downloaded html folder).
Proof.
  unfold replace_images_with_downloaded. repeat kept_step.
  apply preserves_for_each; [apply _|]. intros x. apply kept_replace_image.
Qed.

#[local] Hint Resolve kept_replace_images : kept.

Lemma kept_convert post options title r date :
  preserves (other_files_kept (post_folder r))
    (convert_post post options title r date).
Proof.
  unfold convert_post. repeat kept_step.
  match goal with x : (gmap nat PageElement * nat)%type |- _ => destruct x end.
  repeat kept_step.
Qed.

(** X15: [process_post] changes no file outside the folder of its post: a
    file that exists before and lies neither at the folder nor directly in
    it has the same bytes afterwards, whether the post is converted to the
    end or stops with an exception. *)
Theorem process_post_keeps_other_files post options w w0 title r date :
  resolve_post post options w = (w0, Ok (title, r, date)) ->
  other_files_kept (post_folder r) w (process_post post options w).1.
Proof.
  intros Hr. rewrite (process_post_run _ _ _ _ _ _ _ Hr).
  pose proof (resolve_frame_resolve post options w) as (Ef & _ & _).
  rewrite Hr in Ef. cbn [fst] in Ef.
  transitivity w0; [apply kept_same_fs, Ef|apply kept_convert].
Qed.

(** ** The list [url_map] over a run *)

Lemma url_map_grown_refl n w : url_map_grown n w w.
Proof. exists []. split; [symmetry; apply app_nil_r|simpl; lia]. Qed.

Lemma url_map_grown_trans n1 n2 w1 w2 w3 :
  url_map_grown n1 w1 w2 -> url_map_grown n2 w2 w3 ->
  url_map_grown (n1 + n2) w1 w3.
Proof.
  intros (l1 & E1 & L1) (l2 & E2 & L2). exists (l1 ++ l2). split.
  - rewrite E2, E1, app_assoc. reflexivity.
  - rewrite length_app. lia.
Qed.

Lemma resolve_post_grows post options w :
  url_map_grown 1 w (resolve_post post options w).1.
Proof.
  unfold resolve_post.
  rewrite run_bind, run_lift.
  destruct (find_text post "title"); [|apply url_map_grown_refl].
  rewrite run_bind, run_lift.
  destruct (find_text post "published"); [|apply url_map_grown_refl].
  rewrite run_bind, run_lift.
  destruct (dateutil_parse _); [|apply url_map_grown_refl].
  rewrite run_bind.
  destruct (negb (truthy (find_published_url post))).
  - unfold resolve_draft. rewrite run_bind, run_lift.
    destruct (slugify _); apply url_map_grown_refl.
  - unfold resolve_published. rewrite run_bind. simpl.
    eexists [_]. split; [reflexivity|simpl; lia].
Qed.

Lemma process_post_grows post options w :
  url_map_grown 1 w (process_post post options w).1.
Proof.
  destruct (resolve_post_grows post options w) as (l & E & L).
  exists l. split; [|exact L]. rewrite process_post_url_map. exact E.
Qed.

Lemma for_each_url_map_grows options posts w :
  url_map_grown (List.length posts) w
    (for_each (fun post => process_post post options) posts w).1.
Proof.
  revert w. induction posts as [|p posts IH]; intros w.
  - apply url_map_grown_refl.
  - rewrite for_each_cons.
    pose proof (process_post_grows p options w) as Hp.
    destruct (process_post p options w) as [w1 [[]|e]]; cbn [fst] in Hp.
    + apply (url_map_grown_trans 1 (List.length posts) w w1 _ Hp (IH w1)).
    + destruct Hp as (l & E & L). exists l. split; [exact E|simpl; lia].
Qed.

(** X16: over a run [url_map] only grows at its end: after one post, and
    after the loop over the posts, ended or stopped by an exception, the
    list is the list of before followed by at most one pair per post. *)
Theorem url_map_append_only options :
  (forall post w, url_map_grown 1 w (process_post post options w).1)
  /\ (forall posts w,
        url_map_grown (List.length posts) w
          (for_each (fun post => process_post post options) posts w).1).
Proof.
  split; [intros; apply process_post_grows|intros; apply for_each_url_map_grows].
Qed.

(** ** Posts that stop half way *)

(** Break a goal on what a post leaves alone down along the binds. *)
Ltac post_frame_step :=
  first
    [ apply post_frame_replace_images
    | apply preserves_ret; apply _
    | apply preserves_lift; apply _
    | apply preserves_get; apply _
    | apply post_frame_write
    | apply post_frame_modify; intros ?; split; reflexivity
    | apply preserves_bind; [apply _| |intros ?] ].

(** X17: once the folder of a post has been created it stays, with every
    directory that existed, however [process_post] ends: a post that stops
    with an exception after that point leaves its folder behind. *)
Theorem process_post_leaves_folder post options w w0 title r date f' :
  resolve_post post options w = (w0, Ok (title, r, date)) ->
  Fs.mkdir_parents (post_folder r) (fs w0) = Ok f' ->
  let res := process_post post options w in
  Fs.lookup (fs res.1) (post_folder r) = Some Dir
  /\ forall q, Fs.lookup (fs w) q = Some Dir -> Fs.lookup (fs res.1) q = Some Dir.
Proof.
  intros Hr Hm res. subst res.
  pose proof (resolve_frame_resolve post options w) as (Ef & _ & _).
  rewrite Hr in Ef. cbn [fst] in Ef.
  rewrite (process_post_run _ _ _ _ _ _ _ Hr).
  split.
  - unfold convert_post. rewrite run_bind. unfold on_fs at 1. rewrite Hm.
    cbv beta iota.
    match goal with |- Fs.lookup (fs (?m ?w').1) _ = _ =>
      assert (Hk : preserves post_frame m);
      [|apply (proj2 (Hk w')); cbn; eapply mkdir_parents_creates; exact Hm]
    end.
    repeat post_frame_step.
    match goal with x : (gmap nat PageElement * nat)%type |- _ => destruct x end.
    repeat post_frame_step.
  - intros q Hq. apply (proj2 (post_frame_convert post options title r date w0)).
    rewrite Ef. exact Hq.
Qed.

(** X18: a post without [title] or without [published] element stops
    with [AttributeError] before anything is done; a post without
    [content] element stops with it only after its folder has been created
    (and, for a published post, after its pair has been appended). *)
Theorem process_post_missing_element post options w :
  (find post "title" = None ->
   process_post post options w = (w, Raise (AttributeError "text")))
  /\ (forall title, find_text post "title" = Ok title ->
      find post "published" = None ->
      process_post post options w = (w, Raise (AttributeError "text")))
  /\ (forall w0 title r date f',
      resolve_post post options w = (w0, Ok (title, r, date)) ->
      Fs.mkdir_parents (post_folder r) (fs w0) = Ok f' ->
      find post "content" = None ->
      process_post post options w = (set_fs f' w0, Raise (AttributeError "text"))).
Proof.
  split; [|split].
  - intros Ht. unfold process_post, resolve_post, find_text.
    rewrite Ht. reflexivity.
  - intros title Ht Hp. unfold process_post, resolve_post.
    rewrite run_bind, run_bind, run_lift, Ht. cbv beta iota.
    unfold find_text. rewrite Hp. reflexivity.
  - intros w0 title r date f' Hr Hm Hc.
    rewrite (process_post_run _ _ _ _ _ _ _ Hr). unfold convert_post.
    rewrite run_bind. unfold on_fs at 1. rewrite Hm. cbv beta iota.
    unfold find_text. rewrite Hc. reflexivity.
Qed.

(** X19: the front matter of a published post that is converted to the
    end has the key [aliases] exactly when [--front_alias] is set, and then
    its value is the one-element list of the path of the old address. *)
Theorem published_aliases post options w w1 title ps d url :
  find_text post "title" = Ok title ->
  find_text post "published" = Ok ps ->
  dateutil_parse ps = Ok d ->
  find_published_url post = Some url ->
  url ≠ EmptyString ->
  process_post post options w = (w1, Ok tt) ->
  let p := PathOps.parse (urlparse_path url) in
  let folder :=
    PathOps.parse (output_folder options) // "post"
      // PyStr.zfill 4 (pretty (year d))
      // (format_date d +:+ "-" +:+ PathOps.stem p) in
  exists md body,
    fs w1 !! PathOps.str (folder // "index.md")
    = Some (File (render_index (PyStr.strip (yaml_dump md)) body))
    /\ md !! "aliases"
       = if front_alias options then Some (PyList [PathOps.str p]) else None.
Proof.
  intros Ht Hp Hd Hu Hne Hrun. cbv zeta.
  pose proof (resolve_post_published post options w title ps d url
                Ht Hp Hd Hu Hne) as Hr. cbv zeta in Hr.
  rewrite (process_post_run _ _ _ _ _ _ _ Hr) in Hrun.
  destruct (convert_post_document _ _ _ _ _ _ _ Hrun)
    as (author & tags & body & _ & _ & Hdoc).
  cbn [post_folder slug aliases] in Hdoc.
  eexists _, body. split; [exact Hdoc|].
  unfold metadata_dict. destruct (front_alias options).
  - apply lookup_insert_eq.
  - rewrite !lookup_insert_ne by discriminate. apply lookup_empty.
Qed.

(** ** [main] *)

Lemma main_run xml_root options posts w :
  get_post_entries xml_root = Ok posts ->
  main xml_root options w
  = match for_each (fun post => process_post post options)
            (slice_to (num_posts options) posts) (set_url_map [] w) with
    | (w2, Ok _) =>
        on_fs (Fs.write (url_map_file options) (url_map_text (url_map w2))) w2
    | (w2, Raise e) => (w2, Raise e)
    end.
Proof.
  intros Hp. unfold main. rewrite run_bind, run_lift, Hp. cbv beta iota.
  rewrite run_bind. cbn [modify]. cbv beta iota. rewrite run_bind.
  destruct (for_each _ _ _) as [w2 [[]|e]]; reflexivity.
Qed.

Lemma url_map_csv_clean : clean_component "url_map.csv".
Proof. repeat split; try discriminate. repeat constructor; discriminate. Qed.

(** X20: a run that has no post to process (an export without posts, or
    [--num_posts 0]) creates nothing, so when the output folder does not
    exist, as the command line demands, the final write of [url_map.csv]
    raises [FileNotFoundError]. *)
Theorem main_without_posts xml_root options posts w :
  get_post_entries xml_root = Ok posts ->
  slice_to (num_posts options) posts = [] ->
  Fs.lookup (fs w) (PathOps.parse (output_folder options)) = None ->
  Fs.lookup (fs w) (url_map_file options) ≠ Some Dir ->
  main xml_root options w
  = (set_url_map [] w,
     Raise (FileNotFoundError (PathOps.str (url_map_file options)))).
Proof.
  intros Hp Hs Hout Hfile. rewrite (main_run _ _ _ _ Hp), Hs.
  cbn [for_each]. rewrite run_ret. unfold on_fs, Fs.write. cbn [fs set_url_map].
  unfold url_map_file in *. rewrite (parent_join_clean _ _ url_map_csv_clean), Hout.
  destruct (Fs.lookup (fs w) (PathOps.parse (output_folder options) // "url_map.csv"))
    as [[|]|]; [congruence|reflexivity|reflexivity].
Qed.

(** X21: [main] writes [url_map.csv] only after every post has been
    processed.  When a post raises, [main] ends with that exception in the
    state the post left, the remaining posts are not processed and the file
    is not written.  When all posts end normally and the destination can
    be written, the file holds the text of the list, which has at most one
    pair per processed post. *)
Theorem main_outcome xml_root options posts w :
  get_post_entries xml_root = Ok posts ->
  let todo := slice_to (num_posts options) posts in
  let run := for_each (fun post => process_post post options) todo
               (set_url_map [] w) in
  (forall before p after w1 w2 e,
     todo = before ++ p :: after ->
     for_each (fun post => process_post post options) before (set_url_map [] w)
     = (w1, Ok tt) ->
     process_post p options w1 = (w2, Raise e) ->
     main xml_root options w = (w2, Raise e))
  /\ (run.2 = Ok tt ->
      writable (fs run.1) (url_map_file options) ->
      (main xml_root options w).2 = Ok tt
      /\ fs (main xml_root options w).1
         = <[PathOps.str (url_map_file options)
               := File (url_map_text (url_map run.1))]> (fs run.1)
      /\ List.length (url_map run.1) <= List.length todo).
Proof.
  intros Hp todo run. split.
  - intros before p after w1 w2 e Htodo Hb Hfail.
    rewrite (main_run _ _ _ _ Hp). fold todo. rewrite Htodo.
    rewrite (for_each_raise _ _ _ _ _ _ _ _ Hb Hfail). reflexivity.
  - intros Hok [Hnd Hpd]. rewrite (main_run _ _ _ _ Hp). fold todo run.
    destruct run as [w2 [[]|e]] eqn:Erun; [|discriminate].
    cbn [fst snd] in *. unfold on_fs. rewrite write_ok by assumption.
    split; [reflexivity|]. split; [reflexivity|].
    pose proof (for_each_url_map_grows options todo (set_url_map [] w)) as (l & E & L).
    fold run in E. rewrite Erun in E. cbn [fst url_map set_url_map] in E.
    rewrite E. cbn [app]. exact L.
Qed.

End MoreFacts.

(** ** The further statements on concrete inputs *)

Module MoreExamples.

Import Demo Demo2.

(** X1 on a feed with a draft, a page and a published post. *)
Lemma get_post_entries_filter_witness :
  get_post_entries (feed [post_draft; page; post_published])
  = Ok [post_draft; post_published].
Proof.
  pose proof (get_post_entries_filter (feed [post_draft; page; post_published])) as Hk.
  assert (Hr : Forall (fun e => Forall kind_readable (findall e "category"))
                 (findall (feed [post_draft; page; post_published]) "entry")).
  { vm_compute. repeat constructor; eexists; (split; [reflexivity|]);
      intros; try discriminate; eexists; reflexivity. }
  specialize (Hk Hr). vm_compute in Hk |- *. exact Hk.
Defined.

(** X2 on a post whose mark is followed by a category without [scheme]. *)
Lemma get_post_entries_break_witness :
  get_post_entries (feed [entry_marked_first]) = Ok [entry_marked_first].
Proof.
  apply (get_post_entries_break (feed [entry_marked_first]) [] entry_marked_first []
           [] (element "category" [("scheme", CATEGORY_KIND); ("term", TERM_POST)] None [])
           [element "category" [("term", "loose")] None []] [] []);
    try (vm_compute; reflexivity).
  constructor.
Defined.

(** X3 on a page followed by an entry whose first category has no
    [scheme]. *)
Lemma get_post_entries_missing_scheme_witness :
  get_post_entries (feed [page; entry_no_scheme]) = Raise (KeyError "scheme").
Proof.
  apply (get_post_entries_missing_scheme (feed [page; entry_no_scheme])
           [page] entry_no_scheme [] []
           (element "category" [("term", "loose")] None [])
           [element "category" [("scheme", CATEGORY_KIND); ("term", TERM_POST)] None []]
           []);
    try (vm_compute; reflexivity).
  constructor.
Defined.

(** X4 on the draft of the examples. *)
Lemma get_post_tags_terms_witness :
  get_post_tags post_draft = Ok ["rocq"; "blog"].
Proof.
  assert (Hr : Forall tag_readable (findall post_draft "category")).
  { vm_compute. repeat constructor; eexists; (split; [reflexivity|]);
      intros; try discriminate; eexists; reflexivity. }
  pose proof (proj1 (get_post_tags_terms post_draft Hr)) as Hk.
  vm_compute in Hk |- *. exact Hk.
Defined.

(** X5 on the entry whose first category has no [scheme]. *)
Lemma get_post_tags_missing_key_witness :
  get_post_tags entry_no_scheme = Raise (KeyError "scheme").
Proof.
  apply (proj1 (get_post_tags_missing_key entry_no_scheme []
           (element "category" [("term", "loose")] None [])
           [element "category" [("scheme", CATEGORY_KIND); ("term", TERM_POST)] None []]
           eq_refl (List.Forall_nil _))).
  vm_compute. reflexivity.
Defined.

(** X6 on three posts and the counts 2, 5 and -1. *)
Lemma slice_to_prefix_witness :
  Z.of_nat (List.length (slice_to (Some 2%Z) [1; 2; 3])) = 2%Z
  /\ Z.of_nat (List.length (slice_to (Some 5%Z) [1; 2; 3])) = 3%Z
  /\ Z.of_nat (List.length (slice_to (Some (-1)%Z) [1; 2; 3])) = 2%Z.
Proof.
  split; [|split].
  - exact (proj2 (proj2 (slice_to_prefix (Some 2%Z) [1; 2; 3])) _ eq_refl).
  - exact (proj2 (proj2 (slice_to_prefix (Some 5%Z) [1; 2; 3])) _ eq_refl).
  - exact (proj2 (proj2 (slice_to_prefix (Some (-1)%Z) [1; 2; 3])) _ eq_refl).
Defined.

(** X7 on the list of one published post. *)
Lemma url_map_text_lines_witness :
  PyStr.split "010"
    (url_map_text [("https://old.example/2019/03/my-post.html", "/blog/2019/03/my-post")])
  = ["https://old.example/2019/03/my-post.html,/blog/2019/03/my-post,"; EmptyString].
Proof.
  assert (Hm : Forall (fun e : string * string => no_char "010" e.1 /\ no_char "010" e.2)
                 [("https://old.example/2019/03/my-post.html", "/blog/2019/03/my-post")]).
  { constructor; [|constructor]. split; repeat constructor; discriminate. }
  exact (url_map_text_lines _ Hm).
Defined.

(** X8 on the fifth of March 2019. *)
Lemma format_date_shape_witness :
  exists y m dd,
    format_date (mkDatetime 2019 3 5) = y +:+ "-" +:+ m +:+ "-" +:+ dd
    /\ String.length y = 4 /\ String.length m = 2 /\ String.length dd = 2
    /\ all_digits y /\ all_digits m /\ all_digits dd.
Proof.
  apply (format_date_shape (mkDatetime 2019 3 5)); vm_compute; reflexivity.
Defined.

(** X9 on a thumbnail and the picture it links to. *)
Lemma has_identical_extension_spec_witness :
  has_identical_extension ("http://h/thumb" +:+ "." +:+ "png")
    ("http://h/full" +:+ "." +:+ "png") = true.
Proof.
  apply (proj1 has_identical_extension_spec "http://h/thumb" "png" "http://h/full" "png").
  - repeat constructor; discriminate.
  - repeat constructor; discriminate.
  - reflexivity.
Defined.

(** X10 on an image shown at its original height. *)
Lemma get_src_resize_equal_sizes_witness :
  let a : gmap string string :=
    list_to_map [("height", "320"); ("data-original-height", "320");
                 ("src", "http://b.example/x/s320/img.jpg")] in
  get_src_resize_if_needed a = Ok "http://b.example/x/s320/img.jpg".
Proof.
  intros a.
  apply (get_src_resize_equal_sizes a "http://b.example/x/s320/img.jpg").
  - vm_compute. reflexivity.
  - intros h oh Hh Hoh. vm_compute in Hh, Hoh. congruence.
  - intros wd owd Hw. vm_compute in Hw. discriminate.
Defined.

(** X11 on the path of a picture several directories deep. *)
Lemma image_destination_witness :
  folder // "full.png"
  = mkPath EmptyString ["out"; "draft_posts"; "2019-03-05-hello-world"; "full.png"]
  /\ PathOps.parent (folder // "full.png") = folder.
Proof.
  assert (Hne : PathOps.name (PathOps.parse "/i/s1600/full.png") ≠ EmptyString)
    by (vm_compute; discriminate).
  pose proof (image_destination folder "/i/s1600/full.png" Hne) as Hk.
  vm_compute in Hk |- *. destruct Hk as (H1 & H2 & _). split; assumption.
Defined.

(** X12 on an image that is not served. *)
Lemma replace_image_download_fails_witness :
  let w := in_post tree_gone in
  @replace_image Demo.libs 0 folder 1 w
  = (logged "http://h.example/gone.png" w,
     Raise (Exception "Can't download image http://h.example/gone.png ; Status code 404")).
Proof.
  intros w.
  assert (Hst : status_code (Demo.requests_get
                               (re_sub_size_h "http://h.example/gone.png")) ≠ 200%Z)
    by (vm_compute; discriminate).
  pose proof (@replace_image_download_fails Demo.libs 0 folder 1 w
                (mkTag "img" (list_to_map [("src", "http://h.example/gone.png")]) (Some 0) [])
                "http://h.example/gone.png" "http://h.example/gone.png" 1
                "http://h.example/gone.png" eq_refl eq_refl eq_refl eq_refl Hst) as Hk.
  vm_compute in Hk |- *. exact Hk.
Defined.

(** X13 on an image whose address is that of a host. *)
Lemma replace_image_no_file_name_witness :
  let w := in_post tree_slash in
  @replace_image Demo2.libs 0 folder 1 w
  = (logged "http://h.example/" w,
     Raise (IsADirectoryError "out/draft_posts/2019-03-05-hello-world")).
Proof.
  intros w.
  assert (Hnm : PathOps.name (PathOps.parse (Demo.urlparse_path
                   (re_sub_size_h "http://h.example/"))) = EmptyString)
    by (vm_compute; reflexivity).
  assert (Hst : status_code (Demo2.requests_get
                               (re_sub_size_h "http://h.example/")) = 200%Z)
    by (vm_compute; reflexivity).
  assert (Hdir : Fs.lookup (fs w) folder = Some Dir) by (vm_compute; reflexivity).
  pose proof (@replace_image_no_file_name Demo2.libs 0 folder 1 w
                (mkTag "img" (list_to_map [("src", "http://h.example/")]) (Some 0) [])
                "http://h.example/" "http://h.example/" 1
                "http://h.example/" eq_refl eq_refl eq_refl eq_refl Hnm Hst Hdir) as Hk.
  vm_compute in Hk |- *. exact Hk.
Defined.

(** X14 on a body without images. *)
Lemma replace_images_nothing_to_do_witness :
  let w := in_post tree_text in
  @replace_images_with_downloaded Demo.libs 0 folder w = (w, Ok 0).
Proof.
  intros w. apply (@replace_images_nothing_to_do Demo.libs).
  intros i t Ht Hn. exfalso.
  unfold Soup.tag_at, w, in_post, tree_text, tag_node in Ht.
  cbn [soup list_to_map foldr fst snd] in Ht.
  rewrite !lookup_insert, lookup_empty in Ht.
  repeat case_decide; try discriminate Ht; inversion Ht; subst; discriminate Hn.
Defined.

(** X15 on a draft converted beside a file of the user. *)
Lemma process_post_keeps_other_files_witness :
  let res := @process_post Demo.libs post_draft options with_notes in
  res.2 = Ok tt
  /\ other_files_kept
       (mkPath EmptyString ["out"; "draft_posts"; "2019-03-05-hello-world"])
       with_notes res.1
  /\ fs res.1 !! "notes.txt" = Some (File "keep me").
Proof.
  intros res.
  assert (Hr : @resolve_post Demo.libs post_draft options with_notes
               = (with_notes,
                  Ok (Some "Hello World",
                      mkResolved "hello-world"
                        (mkPath EmptyString ["out"; "draft_posts"; "2019-03-05-hello-world"]) [],
                      "2019-03-05")))
    by (vm_compute; reflexivity).
  pose proof (@process_post_keeps_other_files Demo.libs _ _ _ _ _ _ _ Hr) as Hk.
  cbn [post_folder] in Hk.
  split; [vm_compute; reflexivity|]. split; [exact Hk|].
  apply (Hk "notes.txt" "keep me"); [|vm_compute; reflexivity].
  intros p [->|[nm ->]]; [vm_compute; discriminate|].
  unfold PathOps.str. cbn. discriminate.
Defined.

(** X16 on a published post followed by a draft. *)
Lemma url_map_append_only_witness :
  url_map_grown 2 empty_world
    (for_each (fun post => @process_post Demo.libs post options)
       [post_published; post_draft] empty_world).1.
Proof.
  exact (proj2 (@url_map_append_only Demo.libs options)
           [post_published; post_draft] empty_world).
Defined.

(** X17 on the post whose link has no [href]: it stops with [KeyError]
    and its folder is there. *)
Lemma process_post_leaves_folder_witness :
  let res := @process_post Demo.libs post_no_href options empty_world in
  res.2 = Raise (KeyError "href")
  /\ Fs.lookup (fs res.1) (PathOps.parse "out/draft_posts/2019-03-05-anchor")
     = Some Dir.
Proof.
  intros res. split; [vm_compute; reflexivity|].
  assert (Hr : @resolve_post Demo.libs post_no_href options empty_world
               = (empty_world,
                  Ok (Some "Anchor",
                      mkResolved "anchor"
                        (mkPath EmptyString ["out"; "draft_posts"; "2019-03-05-anchor"]) [],
                      "2019-03-05")))
    by (vm_compute; reflexivity).
  assert (Hm : Fs.mkdir_parents
                 (mkPath EmptyString ["out"; "draft_posts"; "2019-03-05-anchor"]) ∅
               = Ok (list_to_map [("out", Dir); ("out/draft_posts", Dir);
                                  ("out/draft_posts/2019-03-05-anchor", Dir)]))
    by (vm_compute; reflexivity).
  exact (proj1 (@process_post_leaves_folder Demo.libs _ _ _ _ _ _ _ _ Hr Hm)).
Defined.

(** X18 on a post without [title] and on a draft without [content]. *)
Lemma process_post_missing_element_witness :
  @process_post Demo.libs entry_no_title options empty_world
  = (empty_world, Raise (AttributeError "text"))
  /\ @process_post Demo.libs entry_no_content options empty_world
     = (set_fs (list_to_map [("out", Dir); ("out/draft_posts", Dir);
                             ("out/draft_posts/2019-03-05-hello-world", Dir)])
          empty_world,
        Raise (AttributeError "text")).
Proof.
  split.
  - apply (proj1 (@process_post_missing_element Demo.libs entry_no_title options
                    empty_world)).
    vm_compute. reflexivity.
  - apply (proj2 (proj2 (@process_post_missing_element Demo.libs entry_no_content
                           options empty_world))
             empty_world (Some "Hello World")
             (mkResolved "hello-world"
                (mkPath EmptyString ["out"; "draft_posts"; "2019-03-05-hello-world"]) [])
             "2019-03-05");
      vm_compute; reflexivity.
Defined.

(** X19 on the published post with [--front_alias]. *)
Lemma published_aliases_witness :
  let w1 := (@process_post Demo.libs post_published options empty_world).1 in
  exists md body,
    fs w1 !! "out/post/2019/2019-03-05-my-post/index.md"
    = Some (File (render_index (PyStr.strip (Demo.yaml_dump md)) body))
    /\ md !! "aliases" = Some (PyList ["/2019/03/my-post.html"]).
Proof.
  intros w1.
  assert (Ht : find_text post_published "title" = Ok (Some "Hello World"))
    by (vm_compute; reflexivity).
  assert (Hp : find_text post_published "published"
               = Ok (Some "2019-03-05T10:00:00.000-07:00"))
    by (vm_compute; reflexivity).
  assert (Hdate : @dateutil_parse Demo.libs (Some "2019-03-05T10:00:00.000-07:00")
                  = Ok (mkDatetime 2019 3 5))
    by (vm_compute; reflexivity).
  assert (Hu : find_published_url post_published
               = Some "https://old.example/2019/03/my-post.html")
    by (vm_compute; reflexivity).
  assert (Hne : "https://old.example/2019/03/my-post.html" ≠ EmptyString)
    by discriminate.
  assert (Hrun : @process_post Demo.libs post_published options empty_world = (w1, Ok tt))
    by (vm_compute; reflexivity).
  destruct (@published_aliases Demo.libs post_published options empty_world w1
              _ _ _ _ Ht Hp Hdate Hu Hne Hrun) as (md & body & Hdoc & Hal).
  exists md, body. split; [exact Hdoc|exact Hal].
Defined.

(** X20 on an export that holds a page only. *)
Lemma main_without_posts_witness :
  @main Demo.libs (feed [page]) options empty_world
  = (empty_world, Raise (FileNotFoundError "out/url_map.csv")).
Proof.
  apply (@main_without_posts Demo.libs (feed [page]) options []);
    vm_compute; try reflexivity. discriminate.
Defined.

(** X21 on an export that holds the same draft twice, and on one that
    holds a draft and a published post. *)
Lemma main_outcome_witness :
  (@main Demo.libs (feed [post_draft; post_draft]) options empty_world).2
  = Raise (FileExistsError "out/draft_posts/2019-03-05-hello-world")
  /\ (let res := @main Demo.libs (feed [post_draft; post_published]) options empty_world in
      res.2 = Ok tt
      /\ fs res.1 !! "out/url_map.csv"
         = Some (File (url_map_text [("https://old.example/2019/03/my-post.html",
                                      "/blog/2019/03/my-post")]))).
Proof.
  split.
  - assert (Hp : get_post_entries (feed [post_draft; post_draft])
                 = Ok [post_draft; post_draft]) by (vm_compute; reflexivity).
    destruct (@main_outcome Demo.libs _ options _ empty_world Hp) as [Hfail _].
    cbv zeta in Hfail.
    rewrite (Hfail [post_draft] post_draft []
               (@process_post Demo.libs post_draft options empty_world).1
               (@process_post Demo.libs post_draft options
                  (@process_post Demo.libs post_draft options empty_world).1).1
               (FileExistsError "out/draft_posts/2019-03-05-hello-world"));
      vm_compute; reflexivity.
  - intros res.
    assert (Hp : get_post_entries (feed [post_draft; post_published])
                 = Ok [post_draft; post_published]) by (vm_compute; reflexivity).
    destruct (@main_outcome Demo.libs _ options _ empty_world Hp) as [_ Hok].
    cbv zeta in Hok.
    destruct Hok as (Ho & Hfs & _).
    + vm_compute. reflexivity.
    + split; vm_compute; [discriminate|reflexivity].
    + split; [exact Ho|]. subst res. rewrite Hfs.
      vm_compute. reflexivity.
Defined.

End MoreExamples.
